(** * Food monitoring system: rule evaluation and record updates

    A shallow embedding of the three services of the repository
    ([FoodRegulatoryComplianceSystem.js], [QualityAssurance.js] and
    [FoodQualityAlerts.js]) together with the properties their
    specification states about them.

    Conventions of the embedding.
    - Instants are milliseconds since the epoch, in [Z].
    - A stored document is a record typed by the Mongoose schema; a field
      the document does not hold reads as [None] (JavaScript [undefined]).
      The array field always holds an array (Mongoose gives it the empty
      array by default).
    - A request body and the update document built from it are JavaScript
      objects used as maps: [gmap string Value].
    - The system clock is an oracle [clock : nat -> Z] giving the instant
      returned by the n-th read; every [Date.now()] and [moment()] consumes
      one read.
    - Exceptions are explicit: a computation returns [Ok] or [Throw]. *)

From Stdlib Require Import ZArith String List Bool Lia DecimalString.
From stdpp Require Import base option list gmap strings.

Local Open Scope string_scope.
Local Open Scope list_scope.
Local Open Scope Z_scope.

(** ** Values, documents and schema paths *)

Inductive Value : Type :=
| VStr (s : string)
| VBool (b : bool)
| VDate (ms : Z)
| VStrs (l : list string).

Record FoodItem : Type := mkFoodItem {
  foodItem : option string;
  origin : option string;
  qualityCheckDate : option Z;
  freshnessExpiryDate : option Z;
  safetyCertifications : list string;
  contaminationRisk : option bool;
  traceId : option string;
  complianceStatus : option bool;
  qualityIssue : option bool;
  lastUpdated : option Z
}.

Inductive Path : Type :=
| PFoodItem | POrigin | PQualityCheckDate | PFreshnessExpiryDate
| PSafetyCertifications | PContaminationRisk | PTraceId
| PComplianceStatus | PQualityIssue | PLastUpdated.

#[global] Instance Path_eq_dec : EqDecision Path.
Proof. solve_decision. Defined.

Definition path_name (p : Path) : string :=
  match p with
  | PFoodItem => "foodItem"
  | POrigin => "origin"
  | PQualityCheckDate => "qualityCheckDate"
  | PFreshnessExpiryDate => "freshnessExpiryDate"
  | PSafetyCertifications => "safetyCertifications"
  | PContaminationRisk => "contaminationRisk"
  | PTraceId => "traceId"
  | PComplianceStatus => "complianceStatus"
  | PQualityIssue => "qualityIssue"
  | PLastUpdated => "lastUpdated"
  end.

(** Reading a path of a document as a JSON value; [None] is [undefined]. *)
Definition getPath (p : Path) (d : FoodItem) : option Value :=
  match p with
  | PFoodItem => VStr <$> foodItem d
  | POrigin => VStr <$> origin d
  | PQualityCheckDate => VDate <$> qualityCheckDate d
  | PFreshnessExpiryDate => VDate <$> freshnessExpiryDate d
  | PSafetyCertifications => Some (VStrs (safetyCertifications d))
  | PContaminationRisk => VBool <$> contaminationRisk d
  | PTraceId => VStr <$> traceId d
  | PComplianceStatus => VBool <$> complianceStatus d
  | PQualityIssue => VBool <$> qualityIssue d
  | PLastUpdated => VDate <$> lastUpdated d
  end.

(** The schema type of each path: [String], [Date], [[String]], [Boolean].
    A value is accepted for a path when it has the path's type; Mongoose's
    conversions between types are not modelled, any other value is a cast
    error. *)
Definition castable (p : Path) (v : Value) : bool :=
  match p, v with
  | (PFoodItem | POrigin | PTraceId), VStr _ => true
  | (PQualityCheckDate | PFreshnessExpiryDate | PLastUpdated), VDate _ => true
  | PSafetyCertifications, VStrs _ => true
  | (PContaminationRisk | PComplianceStatus | PQualityIssue), VBool _ => true
  | _, _ => false
  end.

(** [$set] of one path. *)
Definition setPath (p : Path) (v : Value) (d : FoodItem) : FoodItem :=
  match p, v with
  | PFoodItem, VStr s =>
      mkFoodItem (Some s) (origin d) (qualityCheckDate d) (freshnessExpiryDate d)
        (safetyCertifications d) (contaminationRisk d) (traceId d)
        (complianceStatus d) (qualityIssue d) (lastUpdated d)
  | POrigin, VStr s =>
      mkFoodItem (foodItem d) (Some s) (qualityCheckDate d) (freshnessExpiryDate d)
        (safetyCertifications d) (contaminationRisk d) (traceId d)
        (complianceStatus d) (qualityIssue d) (lastUpdated d)
  | PQualityCheckDate, VDate t =>
      mkFoodItem (foodItem d) (origin d) (Some t) (freshnessExpiryDate d)
        (safetyCertifications d) (contaminationRisk d) (traceId d)
        (complianceStatus d) (qualityIssue d) (lastUpdated d)
  | PFreshnessExpiryDate, VDate t =>
      mkFoodItem (foodItem d) (origin d) (qualityCheckDate d) (Some t)
        (safetyCertifications d) (contaminationRisk d) (traceId d)
        (complianceStatus d) (qualityIssue d) (lastUpdated d)
  | PSafetyCertifications, VStrs l =>
      mkFoodItem (foodItem d) (origin d) (qualityCheckDate d) (freshnessExpiryDate d)
        l (contaminationRisk d) (traceId d)
        (complianceStatus d) (qualityIssue d) (lastUpdated d)
  | PContaminationRisk, VBool b =>
      mkFoodItem (foodItem d) (origin d) (qualityCheckDate d) (freshnessExpiryDate d)
        (safetyCertifications d) (Some b) (traceId d)
        (complianceStatus d) (qualityIssue d) (lastUpdated d)
  | PTraceId, VStr s =>
      mkFoodItem (foodItem d) (origin d) (qualityCheckDate d) (freshnessExpiryDate d)
        (safetyCertifications d) (contaminationRisk d) (Some s)
        (complianceStatus d) (qualityIssue d) (lastUpdated d)
  | PComplianceStatus, VBool b =>
      mkFoodItem (foodItem d) (origin d) (qualityCheckDate d) (freshnessExpiryDate d)
        (safetyCertifications d) (contaminationRisk d) (traceId d)
        (Some b) (qualityIssue d) (lastUpdated d)
  | PQualityIssue, VBool b =>
      mkFoodItem (foodItem d) (origin d) (qualityCheckDate d) (freshnessExpiryDate d)
        (safetyCertifications d) (contaminationRisk d) (traceId d)
        (complianceStatus d) (Some b) (lastUpdated d)
  | PLastUpdated, VDate t =>
      mkFoodItem (foodItem d) (origin d) (qualityCheckDate d) (freshnessExpiryDate d)
        (safetyCertifications d) (contaminationRisk d) (traceId d)
        (complianceStatus d) (qualityIssue d) (Some t)
  | _, _ => d
  end.

(** ** The world: store, clock, socket *)

(** Payload of [io.emit('qualityAlert', ...)].  The timestamp is kept as an
    instant; its textual formatting belongs to the date library. *)
Record QualityAlert : Type := mkQualityAlert {
  qa_traceId : option string;
  qa_alertMessage : string;
  qa_foodItem : option string;
  qa_timestamp : Z
}.

Record World : Type := mkWorld {
  store : list FoodItem;
  clock : nat -> Z;
  reads : nat;
  emitted : list QualityAlert
}.

Inductive Exn : Type :=
| CastError (path : string)
| ValidationError (path : string).

Inductive Result (A : Type) : Type :=
| Ok (a : A)
| Throw (e : Exn).
Arguments Ok {A} a.
Arguments Throw {A} e.

Definition M (A : Type) : Type := World -> Result A * World.

Definition ret {A} (a : A) : M A := fun w => (Ok a, w).

Definition bind {A B} (m : M A) (k : A -> M B) : M B :=
  fun w => match m w with
           | (Ok a, w') => k a w'
           | (Throw e, w') => (Throw e, w')
           end.

Definition throw {A} (e : Exn) : M A := fun w => (Throw e, w).

Notation "'let*' x ':=' m 'in' k" := (bind m (fun x => k))
  (at level 10, x name, m at level 100, k at level 200).

(** [try { ... } catch (error) { ... }] around a request handler. *)
Definition try_catch {A} (m : M A) (handler : Exn -> A) : World -> A * World :=
  fun w => match m w with
           | (Ok a, w') => (a, w')
           | (Throw e, w') => (handler e, w')
           end.

(** The world after one more read of the clock. *)
Definition tick (w : World) : World :=
  mkWorld (store w) (clock w) (S (reads w)) (emitted w).

(** The instant the next read of the clock returns. *)
Definition now (w : World) : Z := clock w (reads w).

(** [Date.now()] and [moment()]: one read of the clock. *)
Definition Date_now : M Z := fun w => (Ok (now w), tick w).

(** [moment(x)]: the instant [x], or the current instant when [x] is
    [undefined]. *)
Definition moment (x : option Z) : M Z :=
  match x with
  | Some t => ret t
  | None => Date_now
  end.

(** [a.diff(b, "hours")]: the difference in hours, truncated towards zero
    (the library divides the difference in milliseconds by 36e5 and rounds
    a negative quotient up, a positive one down). *)
Definition diff_hours (a b : Z) : Z := Z.quot (a - b) 3600000.

(** [a.isBefore(b)]. *)
Definition isBefore (a b : Z) : bool := a <? b.

(** Truthiness of a [Boolean] path. *)
Definition truthy (b : option bool) : bool :=
  match b with
  | Some true => true
  | _ => false
  end.

(** [arr.includes(x)] on an array of strings. *)
Definition includes (arr : list string) (x : string) : bool :=
  existsb (String.eqb x) arr.

(** [arr.join(sep)]. *)
Fixpoint join (sep : string) (arr : list string) : string :=
  match arr with
  | [] => ""
  | [x] => x
  | x :: rest => x +:+ sep +:+ join sep rest
  end.

(** [`${n}`] for an integer [n]. *)
Definition string_of_Z (n : Z) : string := NilZero.string_of_int (Z.to_int n).

(** [`${s}`] for a [String] path. *)
Definition string_of_field (s : option string) : string :=
  match s with
  | Some x => x
  | None => "undefined"
  end.

(** ** The record store

    The store is the collection of one service, in insertion order.  A query
    by [traceId] selects the first document that holds it. *)

Definition findIndex (t : string) (docs : list FoodItem) : option (nat * FoodItem) :=
  list_find (fun d => traceId d = Some t) docs.

(** [FoodItem.findOne({ traceId })]. *)
Definition findOne (t : string) : M (option FoodItem) :=
  fun w => (Ok (snd <$> findIndex t (store w)), w).

(** Casting of an update document against a schema: the paths of the schema
    that the update names, each with its value.  Keys outside the schema are
    dropped (strict mode); a value of the wrong type is a cast error. *)
Fixpoint castUpdate (schema : list Path) (upd : gmap string Value)
  : Result (list (Path * Value)) :=
  match schema with
  | [] => Ok []
  | p :: rest =>
      match upd !! path_name p with
      | None => castUpdate rest upd
      | Some v =>
          if castable p v then
            match castUpdate rest upd with
            | Ok sets => Ok ((p, v) :: sets)
            | Throw e => Throw e
            end
          else Throw (CastError (path_name p))
      end
  end.

Definition applyUpdate (sets : list (Path * Value)) (d : FoodItem) : FoodItem :=
  foldl (fun acc pv => setPath pv.1 pv.2 acc) d sets.

(** [FoodItem.findOneAndUpdate({ traceId }, upd, { new: true })]: the update
    is cast, each path it names is set in the first matching document, in
    place, and the document as updated is returned ([None] when none
    matches).  The cast precedes the query, so an update that does not cast
    throws whether or not a document matches. *)
Definition findOneAndUpdate (schema : list Path) (t : string)
    (upd : gmap string Value) : M (option FoodItem) :=
  fun w =>
    match castUpdate schema upd with
    | Throw e => (Throw e, w)
    | Ok sets =>
        match findIndex t (store w) with
        | None => (Ok None, w)
        | Some (i, d) =>
            let d' := applyUpdate sets d in
            (Ok (Some d'),
             mkWorld (<[i := d']> (store w)) (clock w) (reads w) (emitted w))
        end
    end.

(** ** Responses *)

Record Response : Type := mkResponse {
  status : Z;
  body : list (string * option Value)
}.

(** [res.json(obj)] and [res.status(n).json(obj)]. *)
Definition res_json (obj : list (string * option Value)) : Response :=
  mkResponse 200 obj.
Definition res_status_json (n : Z) (obj : list (string * option Value)) : Response :=
  mkResponse n obj.

(** The value a response holds under a key. *)
Fixpoint field (k : string) (obj : list (string * option Value)) : option Value :=
  match obj with
  | [] => None
  | (k', v) :: rest => if String.eqb k k' then v else field k rest
  end.

(** ** FoodRegulatoryComplianceSystem.js *)

Module FoodRegulatoryComplianceSystem.

Definition FoodItemSchema : list Path :=
  [PFoodItem; POrigin; PQualityCheckDate; PFreshnessExpiryDate;
   PSafetyCertifications; PContaminationRisk; PTraceId; PComplianceStatus;
   PLastUpdated].

Definition requiredCertifications : list string :=
  ["FDA Approved"; "FSSAI Certified"; "ISO 22000"].

Definition msg_not_compliant : string :=
  "Food item does not meet regulatory compliance standards.".
Definition msg_contamination : string :=
  "Food item has a contamination risk, which violates food safety standards.".
Definition msg_compliant : string :=
  "Food item complies with all regulatory standards.".

Definition checkRegulatoryCompliance (item : FoodItem) : string :=
  let hasRequiredCertifications :=
    forallb (fun cert => includes (safetyCertifications item) cert)
            requiredCertifications in
  if negb hasRequiredCertifications then msg_not_compliant
  else if truthy (contaminationRisk item) then msg_contamination
  else msg_compliant.

(** The part of both handlers that follows the store access. *)
Definition respond (message : option string) (found : option FoodItem) : Response :=
  match found with
  | None => res_status_json 404 [("error", Some (VStr "Food item not found."))]
  | Some item =>
      let complianceStatus := checkRegulatoryCompliance item in
      if negb (String.eqb complianceStatus msg_compliant) then
        res_status_json 400
          [("error", Some (VStr "Food item is not compliant with regulatory standards."));
           ("complianceStatus", Some (VStr complianceStatus))]
      else
        res_json
          ([("foodItem", getPath PFoodItem item);
            ("origin", getPath POrigin item);
            ("safetyCertifications", getPath PSafetyCertifications item);
            ("contaminationRisk", getPath PContaminationRisk item);
            ("freshnessExpiryDate", getPath PFreshnessExpiryDate item);
            ("traceId", getPath PTraceId item);
            ("complianceStatus", Some (VStr msg_compliant));
            ("lastUpdated", getPath PLastUpdated item)]
           ++ match message with
              | Some m => [("message", Some (VStr m))]
              | None => []
              end)
  end.

(** [app.get("/api/food/:traceId")]. *)
Definition app_get (t : string) : World -> Response * World :=
  try_catch
    (let* found := findOne t in
     ret (respond None found))
    (fun _ => res_status_json 500
                [("error", Some (VStr "Failed to fetch food item data."))]).

(** [app.post("/api/food/:traceId")]. *)
Definition app_post (t : string) (updatedData : gmap string Value)
  : World -> Response * World :=
  try_catch
    (let* now := Date_now in
     let* found := findOneAndUpdate FoodItemSchema t
                     (<["lastUpdated" := VDate now]> updatedData) in
     ret (respond
            (Some "Food item traceability and compliance information updated successfully.")
            found))
    (fun _ => res_status_json 500
                [("error", Some (VStr "Failed to update food item data."))]).

End FoodRegulatoryComplianceSystem.

(** ** QualityAssurance.js *)

Module QualityAssurance.

Definition FoodItemSchema : list Path :=
  [PFoodItem; POrigin; PQualityCheckDate; PFreshnessExpiryDate;
   PSafetyCertifications; PContaminationRisk; PTraceId; PLastUpdated].

Definition msg_expired : string := "Food item has expired.".
Definition msg_near_expiry (hoursUntilExpiry : Z) : string :=
  "Food item is nearing expiration (" +:+ string_of_Z hoursUntilExpiry
    +:+ " hours remaining).".
Definition msg_contamination : string := "Food item has a contamination risk.".

Definition checkFoodTrustworthiness (item : FoodItem) : M (list string) :=
  let* currentTime := Date_now in
  let contaminationAlerts := [] in
  let* freshnessExpiry := moment (freshnessExpiryDate item) in
  let hoursUntilExpiry := diff_hours freshnessExpiry currentTime in
  let contaminationAlerts :=
    if hoursUntilExpiry <? 0 then contaminationAlerts ++ [msg_expired]
    else if hoursUntilExpiry <? 24 then
      contaminationAlerts ++ [msg_near_expiry hoursUntilExpiry]
    else contaminationAlerts in
  let contaminationAlerts :=
    if truthy (contaminationRisk item) then contaminationAlerts ++ [msg_contamination]
    else contaminationAlerts in
  ret contaminationAlerts.

(** The part of both handlers that follows the store access. *)
Definition respond (message : string) (found : option FoodItem) : M Response :=
  match found with
  | None => ret (res_status_json 404 [("error", Some (VStr "Food item not found."))])
  | Some item =>
      let* contaminationAlerts := checkFoodTrustworthiness item in
      if 0 <? Z.of_nat (length contaminationAlerts) then
        ret (res_status_json 400
               [("error", Some (VStr "Food item has quality concerns."));
                ("contaminationAlerts", Some (VStrs contaminationAlerts))])
      else
        ret (res_json
               [("foodItem", getPath PFoodItem item);
                ("origin", getPath POrigin item);
                ("safetyCertifications", getPath PSafetyCertifications item);
                ("contaminationRisk", getPath PContaminationRisk item);
                ("freshnessExpiryDate", getPath PFreshnessExpiryDate item);
                ("traceId", getPath PTraceId item);
                ("lastUpdated", getPath PLastUpdated item);
                ("message", Some (VStr message))])
  end.

(** [app.get("/api/food/:traceId")]. *)
Definition app_get (t : string) : World -> Response * World :=
  try_catch
    (let* found := findOne t in
     respond "Food item is safe and trustworthy." found)
    (fun _ => res_status_json 500
                [("error", Some (VStr "Failed to fetch food item data."))]).

(** [app.post("/api/food/:traceId")]. *)
Definition app_post (t : string) (updatedData : gmap string Value)
  : World -> Response * World :=
  try_catch
    (let* now := Date_now in
     let* found := findOneAndUpdate FoodItemSchema t
                     (<["lastUpdated" := VDate now]> updatedData) in
     respond "Food item traceability updated successfully." found)
    (fun _ => res_status_json 500
                [("error", Some (VStr "Failed to update food item data."))]).

End QualityAssurance.

(** ** FoodQualityAlerts.js *)

Module FoodQualityAlerts.

Definition FoodItemSchema : list Path :=
  [PFoodItem; POrigin; PQualityCheckDate; PFreshnessExpiryDate;
   PSafetyCertifications; PContaminationRisk; PTraceId; PQualityIssue;
   PLastUpdated].

Definition requiredCertifications : list string :=
  ["FDA Approved"; "FSSAI Certified"; "ISO 22000"].

Definition msg_contamination : string := "Food item has contamination risk.".
Definition msg_expired : string := "Food item has expired.".
Definition msg_missing (missingCertifications : list string) : string :=
  "Missing required certifications: " +:+ join ", " missingCertifications.

Definition checkQualityIssues (item : FoodItem) : M (list string) :=
  let qualityAlerts := [] in
  let qualityAlerts :=
    if truthy (contaminationRisk item) then qualityAlerts ++ [msg_contamination]
    else qualityAlerts in
  let* currentDate := Date_now in
  let* expiryDate := moment (freshnessExpiryDate item) in
  let qualityAlerts :=
    if isBefore expiryDate currentDate then qualityAlerts ++ [msg_expired]
    else qualityAlerts in
  let missingCertifications :=
    List.filter (fun cert => negb (includes (safetyCertifications item) cert))
                requiredCertifications in
  let qualityAlerts :=
    if 0 <? Z.of_nat (length missingCertifications) then
      qualityAlerts ++ [msg_missing missingCertifications]
    else qualityAlerts in
  ret qualityAlerts.

(** [io.emit('qualityAlert', ...)]. *)
Definition io_emit (ev : QualityAlert) : M unit :=
  fun w => (Ok tt, mkWorld (store w) (clock w) (reads w) (emitted w ++ [ev])).

Definition notifyQualityIssue (item : FoodItem) (qualityAlerts : list string) : M unit :=
  let alertMessage :=
    "Quality issues detected for " +:+ string_of_field (foodItem item) +:+ ": "
      +:+ join " " qualityAlerts in
  let* timestamp := Date_now in
  io_emit (mkQualityAlert (traceId item) alertMessage (foodItem item) timestamp).

(** The part of both handlers that follows the store access. *)
Definition respond (message : option string) (found : option FoodItem) : M Response :=
  match found with
  | None => ret (res_status_json 404 [("error", Some (VStr "Food item not found."))])
  | Some item =>
      let* qualityAlerts := checkQualityIssues item in
      let* _ := (if 0 <? Z.of_nat (length qualityAlerts)
                 then notifyQualityIssue item qualityAlerts
                 else ret tt) in
      ret (res_json
             ([("foodItem", getPath PFoodItem item);
               ("origin", getPath POrigin item);
               ("safetyCertifications", getPath PSafetyCertifications item);
               ("contaminationRisk", getPath PContaminationRisk item);
               ("freshnessExpiryDate", getPath PFreshnessExpiryDate item);
               ("traceId", getPath PTraceId item);
               ("qualityAlerts", Some (VStrs qualityAlerts));
               ("lastUpdated", getPath PLastUpdated item)]
              ++ match message with
                 | Some m => [("message", Some (VStr m))]
                 | None => []
                 end))
  end.

(** [app.get('/api/food/:traceId')]. *)
Definition app_get (t : string) : World -> Response * World :=
  try_catch
    (let* found := findOne t in
     respond None found)
    (fun _ => res_status_json 500
                [("error", Some (VStr "Failed to fetch food item data."))]).

(** [app.post('/api/food/:traceId')]. *)
Definition app_post (t : string) (updatedData : gmap string Value)
  : World -> Response * World :=
  try_catch
    (let* now := Date_now in
     let* found := findOneAndUpdate FoodItemSchema t
                     (<["lastUpdated" := VDate now]> updatedData) in
     respond
       (Some "Food item traceability and quality information updated successfully.")
       found)
    (fun _ => res_status_json 500
                [("error", Some (VStr "Failed to update food item data."))]).

End FoodQualityAlerts.

(** ** Vocabulary of the specification *)

(** The three services, and the specification's [getRecord] and
    [updateRecord] in each of them. *)
Inductive Service : Type := Compliance | Trustworthiness | QualityAlerts.

Definition schema (s : Service) : list Path :=
  match s with
  | Compliance => FoodRegulatoryComplianceSystem.FoodItemSchema
  | Trustworthiness => QualityAssurance.FoodItemSchema
  | QualityAlerts => FoodQualityAlerts.FoodItemSchema
  end.

Definition getRecord (s : Service) : string -> World -> Response * World :=
  match s with
  | Compliance => FoodRegulatoryComplianceSystem.app_get
  | Trustworthiness => QualityAssurance.app_get
  | QualityAlerts => FoodQualityAlerts.app_get
  end.

Definition updateRecord (s : Service)
  : string -> gmap string Value -> World -> Response * World :=
  match s with
  | Compliance => FoodRegulatoryComplianceSystem.app_post
  | Trustworthiness => QualityAssurance.app_post
  | QualityAlerts => FoodQualityAlerts.app_post
  end.

(** The update document a handler hands to the store:
    [{ ...updatedData, lastUpdated: Date.now() }]. *)
Definition updateDocument (updatedData : gmap string Value) (w : World)
  : gmap string Value :=
  <["lastUpdated" := VDate (now w)]> updatedData.

(** The world in which a handler evaluates the document it updated at
    index [i]: one read of the clock was spent on [lastUpdated]. *)
Definition updatedWorld (w : World) (i : nat) (d' : FoodItem) : World :=
  mkWorld (<[i := d']> (store w)) (clock w) (S (reads w)) (emitted w).


(** What a service's evaluator finds for a document: the key under which a
    response carries the finding, the finding, and whether it is clean
    (compliant, or no alert). *)
Definition evaluation (s : Service) (d : FoodItem) (w : World)
  : Result (string * Value * bool) :=
  match s with
  | Compliance =>
      let c := FoodRegulatoryComplianceSystem.checkRegulatoryCompliance d in
      Ok ("complianceStatus", VStr c,
          String.eqb c FoodRegulatoryComplianceSystem.msg_compliant)
  | Trustworthiness =>
      match fst (QualityAssurance.checkFoodTrustworthiness d w) with
      | Ok alerts =>
          Ok ("contaminationAlerts", VStrs alerts,
              match alerts with [] => true | _ => false end)
      | Throw e => Throw e
      end
  | QualityAlerts =>
      match fst (FoodQualityAlerts.checkQualityIssues d w) with
      | Ok alerts =>
          Ok ("qualityAlerts", VStrs alerts,
              match alerts with [] => true | _ => false end)
      | Throw e => Throw e
      end
  end.

(** The evaluation outcome [(key, finding, clean)] of service [s] as a
    response [r] of that service carries it: a clean outcome is a success;
    an outcome that is not clean is in the payload under [key], in a
    success of the quality-alert service and in a 400 response with an
    [error] field of the two other services. *)
Definition outcomeCarried (s : Service) (r : Response)
    (key : string) (finding : Value) (clean : bool) : Prop :=
  (clean = true -> status r = 200) /\
  (clean = false ->
   field key (body r) = Some finding /\
   (s = QualityAlerts -> status r = 200 /\ field "error" (body r) = None) /\
   (s <> QualityAlerts -> status r = 400 /\ is_Some (field "error" (body r)))).

(** The required certifications a document lacks, in the order of the
    required list. *)
Definition missingRequired (required : list string) (d : FoodItem) : list string :=
  List.filter (fun cert => negb (includes (safetyCertifications d) cert)) required.



(** Whether a string starts with another. *)
Fixpoint starts_with (p s : string) : bool :=
  match p with
  | EmptyString => true
  | String a p' =>
      match s with
      | EmptyString => false
      | String b s' => Ascii.eqb a b && starts_with p' s'
      end
  end.

(** Recognisers of the alert kinds among the trustworthiness messages. *)
Definition is_near_expiry (alert : string) : bool :=
  starts_with "Food item is nearing expiration (" alert.
Definition is_expired (alert : string) : bool :=
  String.eqb alert QualityAssurance.msg_expired.
Definition is_contamination (alert : string) : bool :=
  String.eqb alert QualityAssurance.msg_contamination.

(** A message names a certification when the certification occurs in it. *)
Definition names (message cert : string) : Prop :=
  exists before after, message = before +:+ cert +:+ after.


(** The alert of the freshness rule of the trustworthiness check for a
    number of whole hours until expiry, and the alert of its contamination
    rule. *)
Definition expiryAlerts (hoursUntilExpiry : Z) : list string :=
  if hoursUntilExpiry <? 0 then [QualityAssurance.msg_expired]
  else if hoursUntilExpiry <? 24
       then [QualityAssurance.msg_near_expiry hoursUntilExpiry]
       else [].

Definition contaminationAlert (d : FoodItem) : list string :=
  if truthy (contaminationRisk d) then [QualityAssurance.msg_contamination] else [].

(** The paths of a document that every success response echoes, each
    under its own name. *)
Definition echoedPaths : list Path :=
  [PFoodItem; POrigin; PSafetyCertifications; PContaminationRisk;
   PFreshnessExpiryDate; PTraceId; PLastUpdated].

(** A clock that never runs backwards. *)
Definition clockMonotone (w : World) : Prop :=
  forall n m : nat, (n <= m)%nat -> clock w n <= clock w m.

(** A world that differs from another by reads of the clock only. *)
Definition onlyReads (w w' : World) : Prop :=
  store w' = store w /\ clock w' = clock w /\ emitted w' = emitted w /\
  (reads w <= reads w')%nat.

(** The event [notifyQualityIssue] emits for a document and its alerts at
    an instant. *)
Definition qualityAlertEvent (d : FoodItem) (qualityAlerts : list string)
    (timestamp : Z) : QualityAlert :=
  mkQualityAlert (traceId d)
    ("Quality issues detected for " +:+ string_of_field (foodItem d) +:+ ": "
       +:+ join " " qualityAlerts)
    (foodItem d) timestamp.

(** What the part of a handler that follows the store access does on a
    document [d], from world [w] to the response [r] and the world [w']:
    it reads the clock and nothing else, answers 200 or 400, echoes the
    document in a success, carries the evaluation, and emits one event
    when it is the quality-alert service and there are alerts. *)
Definition respondedOn (s : Service) (d : FoodItem) (w : World)
    (r : Response) (w' : World) : Prop :=
  store w' = store w /\ clock w' = clock w /\ (reads w <= reads w')%nat /\
  (status r = 200 \/ status r = 400) /\
  (status r = 200 ->
   forall p, p ∈ echoedPaths -> field (path_name p) (body r) = getPath p d) /\
  (forall key finding clean,
     evaluation s d w = Ok (key, finding, clean) ->
     outcomeCarried s r key finding clean) /\
  match s with
  | QualityAlerts =>
      exists alerts w1,
        FoodQualityAlerts.checkQualityIssues d w = (Ok alerts, w1) /\
        onlyReads w w1 /\
        field "qualityAlerts" (body r) = Some (VStrs alerts) /\
        emitted w' = emitted w ++
                     match alerts with
                     | [] => []
                     | _ :: _ => [qualityAlertEvent d alerts (now w1)]
                     end
  | _ => emitted w' = emitted w
  end.

(** An event announces a document and its alerts when it carries the
    document's trace id and name and its message names the document and
    every alert. *)
Definition announces (ev : QualityAlert) (d : FoodItem) (alerts : list string)
  : Prop :=
  qa_traceId ev = traceId d /\
  qa_foodItem ev = foodItem d /\
  names (qa_alertMessage ev) (string_of_field (foodItem d)) /\
  forall a, In a alerts -> names (qa_alertMessage ev) a.

(** ** Sample data *)

Definition sample_clock (n : nat) : Z := 1700000000000 + Z.of_nat n.

Definition sample_world (docs : list FoodItem) : World :=
  mkWorld docs sample_clock 0 [].

Definition sample_record (certs : list string) (risk : bool) (expiry : option Z)
  : FoodItem :=
  mkFoodItem (Some "Milk") (Some "FarmX") (Some 1699990000000) expiry
    certs (Some risk) (Some "T1") (Some false) (Some false) (Some 1699990000000).

Definition all_certifications : list string :=
  ["FDA Approved"; "FSSAI Certified"; "ISO 22000"].

(** * Properties *)

(** ** Arrays and strings *)

Lemma includes_In (arr : list string) (x : string) :
  includes arr x = true <-> In x arr.
Proof.
  unfold includes. rewrite existsb_exists. split.
  - intros (y & Hy & Heq). apply String.eqb_eq in Heq. now subst.
  - intros Hin. exists x. split; [assumption | apply String.eqb_refl].
Qed.





(** ** Compliance *)

Section ComplianceEvaluator.
Import FoodRegulatoryComplianceSystem.



Lemma truthy_Some_true (b : option bool) : truthy b = true <-> b = Some true.
Proof. destruct b as [[|]|]; simpl; split; congruence. Qed.




End ComplianceEvaluator.

(** ** Trustworthiness *)

Section TrustworthinessEvaluator.
Import QualityAssurance.

(** The check on a document that holds an expiry date: one read of the
    clock. *)
Lemma checkFoodTrustworthiness_dated (d : FoodItem) (w : World) (e : Z) :
  freshnessExpiryDate d = Some e ->
  checkFoodTrustworthiness d w =
  (Ok (expiryAlerts (diff_hours e (now w)) ++ contaminationAlert d), tick w).
Proof.
  intros He. unfold checkFoodTrustworthiness, moment. rewrite He.
  unfold bind, Date_now, ret, expiryAlerts, contaminationAlert. cbv beta iota.
  destruct (diff_hours e (now w) <? 0); [| destruct (diff_hours e (now w) <? 24)];
    destruct (truthy (contaminationRisk d)); reflexivity.
Qed.

(** The check on a document without expiry date: [moment(undefined)] reads
    the clock a second time and the result stands for the expiry date. *)
Lemma checkFoodTrustworthiness_undated (d : FoodItem) (w : World) :
  freshnessExpiryDate d = None ->
  checkFoodTrustworthiness d w =
  (Ok (expiryAlerts (diff_hours (now (tick w)) (now w)) ++ contaminationAlert d),
   tick (tick w)).
Proof.
  intros He. unfold checkFoodTrustworthiness, moment. rewrite He.
  unfold bind, Date_now, ret, expiryAlerts, contaminationAlert. cbv beta iota.
  destruct (diff_hours (now (tick w)) (now w) <? 0);
    [| destruct (diff_hours (now (tick w)) (now w) <? 24)];
    destruct (truthy (contaminationRisk d)); reflexivity.
Qed.

(** The check never throws. *)
Lemma checkFoodTrustworthiness_total (d : FoodItem) (w : World) :
  exists alerts w', checkFoodTrustworthiness d w = (Ok alerts, w').
Proof.
  destruct (freshnessExpiryDate d) as [e |] eqn:He.
  - rewrite (checkFoodTrustworthiness_dated d w e He). eauto.
  - rewrite (checkFoodTrustworthiness_undated d w He). eauto.
Qed.

Lemma diff_hours_negative_iff (a b : Z) :
  diff_hours a b < 0 <-> a - b <= - 3600000.
Proof.
  unfold diff_hours. pose proof (Z.quot_rem' (a - b) 3600000) as Hq.
  destruct (Z_le_gt_dec 0 (a - b)) as [Hpos | Hneg].
  - pose proof (Z.rem_bound_pos_pos (a - b) 3600000 ltac:(lia) Hpos). lia.
  - pose proof (Z.rem_bound_pos_neg (a - b) 3600000 ltac:(lia) ltac:(lia)). lia.
Qed.

Lemma diff_hours_within_the_hour (a b : Z) :
  Z.abs (a - b) < 3600000 -> diff_hours a b = 0.
Proof.
  intros H. unfold diff_hours. apply Z.quot_small_iff; [lia |].
  rewrite (Z.abs_eq 3600000) by lia. exact H.
Qed.



(** What the check makes of a record without expiry date: the two reads of
    the clock being less than an hour apart, the near-expiry alert with 0
    hours, then the contamination alert when the flag is set. *)
Lemma undated_record_near_expiry (d : FoodItem) (w : World) :
  freshnessExpiryDate d = None ->
  Z.abs (now (tick w) - now w) < 3600000 ->
  fst (checkFoodTrustworthiness d w) =
  Ok (msg_near_expiry 0 ::
      if truthy (contaminationRisk d) then [msg_contamination] else []).
Proof.
  intros He Hclock. rewrite (checkFoodTrustworthiness_undated d w He).
  rewrite (diff_hours_within_the_hour _ _ Hclock). reflexivity.
Qed.

(** C3 (as amended): on a record without expiry date the check does not
    fail with a validation error: it returns an alert sequence, after two
    reads of the clock, in which the contamination alert comes last and is
    present exactly when the flag is set. *)
Theorem C3_absent_expiry_date_is_evaluated (d : FoodItem) (w : World) :
  freshnessExpiryDate d = None ->
  (forall path,
     fst (checkFoodTrustworthiness d w) <> Throw (ValidationError path)) /\
  exists expiryPart,
    checkFoodTrustworthiness d w =
    (Ok (expiryPart ++
         if truthy (contaminationRisk d) then [msg_contamination] else []),
     tick (tick w)) /\
    (length expiryPart <= 1)%nat /\
    List.filter is_contamination expiryPart = [].
Proof.
  intros He. rewrite (checkFoodTrustworthiness_undated d w He). split.
  - intros path. discriminate.
  - exists (expiryAlerts (diff_hours (now (tick w)) (now w))).
    split; [reflexivity |]. unfold expiryAlerts.
    destruct (_ <? 0); [split; [simpl; lia | reflexivity] |].
    destruct (_ <? 24); split; simpl; try lia; reflexivity.
Qed.

Lemma C3_absent_expiry_date_is_evaluated_witness :
  freshnessExpiryDate (sample_record all_certifications true None) = None /\
  exists expiryPart,
    checkFoodTrustworthiness (sample_record all_certifications true None)
      (sample_world []) =
    (Ok (expiryPart ++ [msg_contamination]), tick (tick (sample_world []))) /\
    (length expiryPart <= 1)%nat /\
    List.filter is_contamination expiryPart = [].
Proof.
  split; [reflexivity |].
  apply (proj2 (C3_absent_expiry_date_is_evaluated
                  (sample_record all_certifications true None)
                  (sample_world []) eq_refl)).
Defined.

(** C3 (as stated) fails: the check of a record without expiry date
    returns alerts, it throws no validation error. *)
Lemma C3_counterexample :
  freshnessExpiryDate (sample_record all_certifications false None) = None /\
  fst (checkFoodTrustworthiness (sample_record all_certifications false None)
         (sample_world [])) =
  Ok ["Food item is nearing expiration (0 hours remaining)."] /\
  forall path,
    fst (checkFoodTrustworthiness (sample_record all_certifications false None)
           (sample_world [])) <> Throw (ValidationError path).
Proof. repeat split. intros path. vm_compute. discriminate. Qed.

(** A record whose expiry date lies less than an hour before the evaluation
    time gets the near-expiry alert with 0 hours, and no expired alert: the
    difference in hours is truncated towards zero. *)
Lemma expired_within_the_hour (d : FoodItem) (w : World) (e : Z) :
  freshnessExpiryDate d = Some e ->
  now w - 3600000 < e < now w ->
  fst (checkFoodTrustworthiness d w) = Ok (msg_near_expiry 0 :: contaminationAlert d).
Proof.
  intros He Hlt. rewrite (checkFoodTrustworthiness_dated d w e He).
  rewrite diff_hours_within_the_hour by lia. reflexivity.
Qed.

(** The expired alert is given exactly from one full hour after expiry. *)
Lemma expired_alert_iff (d : FoodItem) (w : World) (e : Z) :
  freshnessExpiryDate d = Some e ->
  (exists rest, fst (checkFoodTrustworthiness d w) = Ok (msg_expired :: rest)) <->
  e <= now w - 3600000.
Proof.
  intros He. rewrite (checkFoodTrustworthiness_dated d w e He).
  pose proof (diff_hours_negative_iff e (now w)) as Hneg.
  unfold expiryAlerts. cbn [fst].
  destruct (Z.ltb_spec (diff_hours e (now w)) 0) as [Hlt | Hge].
  - split; [intros _; lia | eauto].
  - split; [| lia].
    intros [rest Heq]. exfalso.
    assert (Hhd : forall x l, Ok (x :: l) = Ok (msg_expired :: rest) ->
                              is_expired x = true).
    { intros x l Hx. injection Hx as -> _. reflexivity. }
    destruct (diff_hours e (now w) <? 24).
    + apply Hhd in Heq. discriminate Heq.
    + unfold contaminationAlert in Heq.
      destruct (truthy (contaminationRisk d)); [| discriminate Heq].
      apply Hhd in Heq. discriminate Heq.
Qed.

(** C4: the check of a record that expired half an hour before the
    evaluation time returns the near-expiry alert with 0 hours and no
    expired alert. *)
Theorem C4_recently_expired_reported_as_near_expiry :
  freshnessExpiryDate
    (sample_record all_certifications false (Some (1700000000000 - 1800000)))
  = Some (now (sample_world []) - 1800000) /\
  fst (checkFoodTrustworthiness
         (sample_record all_certifications false (Some (1700000000000 - 1800000)))
         (sample_world [])) =
  Ok ["Food item is nearing expiration (0 hours remaining)."].
Proof. split; reflexivity. Qed.



(** C6: the alert sequence of the check is the expiry-related alert
    (expired or near expiry), if any, followed by the contamination alert,
    if any; the contamination alert is present exactly when the flag is
    set, and it is not an expiry-related alert. *)
Theorem C6_expiry_alert_before_contamination_alert (d : FoodItem) (w : World) :
  exists expiryPart contaminationPart,
    fst (checkFoodTrustworthiness d w) = Ok (expiryPart ++ contaminationPart) /\
    (expiryPart = [] \/ expiryPart = [msg_expired] \/
     exists h, 0 <= h < 24 /\ expiryPart = [msg_near_expiry h]) /\
    contaminationPart =
      (if truthy (contaminationRisk d) then [msg_contamination] else []) /\
    is_expired msg_contamination = false /\
    is_near_expiry msg_contamination = false /\
    is_contamination msg_expired = false /\
    (forall h, is_contamination (msg_near_expiry h) = false).
Proof.
  assert (Hparts : forall h,
    expiryAlerts h = [] \/ expiryAlerts h = [msg_expired] \/
    exists h', 0 <= h' < 24 /\ expiryAlerts h = [msg_near_expiry h']).
  { intros h. unfold expiryAlerts.
    destruct (Z.ltb_spec h 0); [auto |].
    destruct (Z.ltb_spec h 24); [| auto].
    right; right. exists h. split; [lia | reflexivity]. }
  destruct (freshnessExpiryDate d) as [e |] eqn:He.
  - rewrite (checkFoodTrustworthiness_dated d w e He).
    exists (expiryAlerts (diff_hours e (now w))), (contaminationAlert d).
    repeat split; auto.
  - rewrite (checkFoodTrustworthiness_undated d w He).
    exists (expiryAlerts (diff_hours (now (tick w)) (now w))), (contaminationAlert d).
    repeat split; auto.
Qed.

End TrustworthinessEvaluator.

(** ** Quality alerts *)

Section QualityAlertEvaluator.
Import FoodQualityAlerts.

Lemma append_assoc (a b c : string) : (a +:+ b) +:+ c = a +:+ b +:+ c.
Proof.
  induction a as [| x a IH]; [reflexivity |].
  change (String x ((a +:+ b) +:+ c) = String x (a +:+ b +:+ c)).
  now rewrite IH.
Qed.

Lemma append_empty_r (a : string) : a +:+ "" = a.
Proof.
  induction a as [| x a IH]; [reflexivity |].
  change (String x (a +:+ "") = String x a). now rewrite IH.
Qed.

Lemma names_refl (s : string) : names s s.
Proof.
  exists "", "". change ("" +:+ s +:+ "") with (s +:+ "").
  now rewrite append_empty_r.
Qed.

Lemma names_append_l (p s c : string) : names s c -> names (p +:+ s) c.
Proof.
  intros (b & a & ->). exists (p +:+ b), a. now rewrite append_assoc.
Qed.

Lemma names_append_r (s q c : string) : names s c -> names (s +:+ q) c.
Proof.
  intros (b & a & ->). exists b, (a +:+ q). now rewrite !append_assoc.
Qed.

(** A joined array names each of its elements. *)
Lemma join_names (sep : string) (arr : list string) (c : string) :
  In c arr -> names (join sep arr) c.
Proof.
  induction arr as [| x rest IH]; [intros [] |].
  intros [-> | Hin].
  - destruct rest as [| y rest']; [apply names_refl |].
    change (join sep (c :: y :: rest')) with (c +:+ sep +:+ join sep (y :: rest')).
    apply names_append_r, names_refl.
  - destruct rest as [| y rest']; [destruct Hin |].
    change (join sep (x :: y :: rest')) with (x +:+ sep +:+ join sep (y :: rest')).
    apply names_append_l, names_append_l, IH, Hin.
Qed.

(** The check as one sequence: contamination, expiry, certifications.  The
    instant compared with the evaluation time is the expiry date, or that
    of a second read of the clock when the document holds none. *)
Lemma checkQualityIssues_run (d : FoodItem) (w : World) :
  checkQualityIssues d w =
  (Ok ((if truthy (contaminationRisk d) then [msg_contamination] else [])
       ++ (if isBefore (match freshnessExpiryDate d with
                        | Some e => e
                        | None => now (tick w)
                        end) (now w)
           then [msg_expired] else [])
       ++ match missingRequired requiredCertifications d with
          | [] => []
          | _ :: _ => [msg_missing (missingRequired requiredCertifications d)]
          end),
   match freshnessExpiryDate d with
   | Some _ => tick w
   | None => tick (tick w)
   end).
Proof.
  unfold checkQualityIssues, moment.
  change (List.filter _ requiredCertifications)
    with (missingRequired requiredCertifications d).
  destruct (freshnessExpiryDate d) as [e |];
    unfold bind, Date_now, ret; cbv beta iota;
    destruct (truthy (contaminationRisk d));
    destruct (isBefore _ (now w));
    destruct (missingRequired requiredCertifications d); reflexivity.
Qed.



End QualityAlertEvaluator.

(** ** Documents and the store *)

Lemma path_name_inj (p q : Path) : path_name p = path_name q -> p = q.
Proof. destruct p, q; simpl; intros H; solve [reflexivity | discriminate H]. Qed.

Lemma getPath_setPath_eq (p : Path) (v : Value) (d : FoodItem) :
  castable p v = true -> getPath p (setPath p v d) = Some v.
Proof. destruct p, v; simpl; intros H; solve [reflexivity | discriminate H]. Qed.

Lemma getPath_setPath_ne (p q : Path) (v : Value) (d : FoodItem) :
  p <> q -> getPath q (setPath p v d) = getPath q d.
Proof. intros Hne. destruct p, q, v; solve [reflexivity | congruence]. Qed.

(** What a document holds under a path after an update that was cast: the
    value the update gives for the path when the schema declares the path
    and the update names it, what it held before otherwise. *)
Lemma getPath_applyUpdate (paths : list Path) (upd : gmap string Value)
    (sets : list (Path * Value)) (d : FoodItem) (q : Path) :
  castUpdate paths upd = Ok sets ->
  getPath q (applyUpdate sets d) =
  if decide (q ∈ paths)
  then match upd !! path_name q with
       | Some v => Some v
       | None => getPath q d
       end
  else getPath q d.
Proof.
  revert sets d. induction paths as [| p rest IH]; intros sets d Hcast.
  - simpl in Hcast. injection Hcast as <-. reflexivity.
  - simpl in Hcast. destruct (upd !! path_name p) as [v |] eqn:Hp.
    + destruct (castable p v) eqn:Hc; [| discriminate Hcast].
      destruct (castUpdate rest upd) as [sets' |] eqn:Hrest; [| discriminate Hcast].
      injection Hcast as <-.
      change (applyUpdate ((p, v) :: sets') d)
        with (applyUpdate sets' (setPath p v d)).
      rewrite (IH sets' (setPath p v d) eq_refl).
      destruct (decide (q = p)) as [-> | Hne].
      * rewrite Hp, getPath_setPath_eq by exact Hc.
        rewrite (decide_True (P := p ∈ p :: rest)) by (left).
        destruct (decide (p ∈ rest)); reflexivity.
      * rewrite getPath_setPath_ne by congruence.
        destruct (decide (q ∈ rest)) as [Hin | Hnin].
        -- rewrite (decide_True (P := q ∈ p :: rest)) by (now right).
           reflexivity.
        -- rewrite (decide_False (P := q ∈ p :: rest)); [reflexivity |].
           intros Hin. apply elem_of_cons in Hin. tauto.
    + rewrite (IH sets d Hcast).
      destruct (decide (q = p)) as [-> | Hne].
      * rewrite Hp. rewrite (decide_True (P := p ∈ p :: rest)) by (left).
        destruct (decide (p ∈ rest)); reflexivity.
      * destruct (decide (q ∈ rest)) as [Hin | Hnin].
        -- rewrite (decide_True (P := q ∈ p :: rest)) by (now right).
           reflexivity.
        -- rewrite (decide_False (P := q ∈ p :: rest)); [reflexivity |].
           intros Hin. apply elem_of_cons in Hin. tauto.
Qed.

Lemma findIndex_lookup (t : string) (docs : list FoodItem) (i : nat) (d : FoodItem) :
  findIndex t docs = Some (i, d) -> docs !! i = Some d /\ traceId d = Some t.
Proof.
  unfold findIndex. intros H. apply list_find_Some in H. tauto.
Qed.

Lemma lookup_updated (docs : list FoodItem) (i : nat) (d d' : FoodItem) :
  docs !! i = Some d -> <[i := d']> docs !! i = Some d'.
Proof.
  intros H. apply list_lookup_insert_eq. eapply lookup_lt_Some, H.
Qed.

Lemma updateDocument_lastUpdated (upd : gmap string Value) (w : World) :
  updateDocument upd w !! path_name PLastUpdated = Some (VDate (now w)).
Proof. unfold updateDocument. apply lookup_insert_eq. Qed.

Lemma updateDocument_other (upd : gmap string Value) (w : World) (p : Path) :
  p <> PLastUpdated ->
  updateDocument upd w !! path_name p = upd !! path_name p.
Proof.
  intros Hne. unfold updateDocument. apply lookup_insert_ne.
  intros Heq. apply Hne. symmetry. now apply path_name_inj.
Qed.

Lemma lastUpdated_in_schema (s : Service) : PLastUpdated ∈ schema s.
Proof. destruct s; simpl; repeat constructor. Qed.

(** ** Request handlers *)

Lemma findOne_found (t : string) (w : World) (i : nat) (d : FoodItem) :
  findIndex t (store w) = Some (i, d) -> findOne t w = (Ok (Some d), w).
Proof. intros H. unfold findOne. now rewrite H. Qed.

Lemma findOneAndUpdate_found (paths : list Path) (t : string)
    (upd : gmap string Value) (w : World) (i : nat) (d : FoodItem)
    (sets : list (Path * Value)) :
  findIndex t (store w) = Some (i, d) ->
  castUpdate paths (updateDocument upd w) = Ok sets ->
  findOneAndUpdate paths t (<["lastUpdated" := VDate (now w)]> upd) (tick w) =
  (Ok (Some (applyUpdate sets d)), updatedWorld w i (applyUpdate sets d)).
Proof.
  intros Hfind Hcast. unfold findOneAndUpdate.
  change (<["lastUpdated" := VDate (now w)]> upd) with (updateDocument upd w).
  rewrite Hcast. change (store (tick w)) with (store w). rewrite Hfind.
  reflexivity.
Qed.



Lemma compliance_respond (message : option string) (d : FoodItem) :
  outcomeCarried Compliance
    (FoodRegulatoryComplianceSystem.respond message (Some d))
    "complianceStatus"
    (VStr (FoodRegulatoryComplianceSystem.checkRegulatoryCompliance d))
    (String.eqb (FoodRegulatoryComplianceSystem.checkRegulatoryCompliance d)
                FoodRegulatoryComplianceSystem.msg_compliant).
Proof.
  unfold outcomeCarried, FoodRegulatoryComplianceSystem.respond.
  destruct (String.eqb _ FoodRegulatoryComplianceSystem.msg_compliant);
    cbn [negb]; split; intros Hclean; try discriminate Hclean.
  - reflexivity.
  - split; [reflexivity |]. split; [intros Hs; discriminate Hs |].
    intros _. split; [reflexivity | eexists; reflexivity].
Qed.

Lemma trustworthiness_respond (message : string) (d : FoodItem) (w w' : World)
    (alerts : list string) :
  QualityAssurance.checkFoodTrustworthiness d w = (Ok alerts, w') ->
  exists r,
    QualityAssurance.respond message (Some d) w = (Ok r, w') /\
    outcomeCarried Trustworthiness r "contaminationAlerts" (VStrs alerts)
      (match alerts with [] => true | _ => false end).
Proof.
  intros Hcheck. unfold QualityAssurance.respond, bind. rewrite Hcheck.
  destruct alerts as [| a rest].
  - eexists. split; [reflexivity |]. split; intros Hclean; [reflexivity | discriminate].
  - eexists. split; [reflexivity |]. split; intros Hclean; [discriminate |].
    split; [reflexivity |]. split; [intros Hs; discriminate Hs |].
    intros _. split; [reflexivity | eexists; reflexivity].
Qed.

Lemma quality_respond (message : option string) (d : FoodItem) (w w' : World)
    (alerts : list string) :
  FoodQualityAlerts.checkQualityIssues d w = (Ok alerts, w') ->
  exists r w'',
    FoodQualityAlerts.respond message (Some d) w = (Ok r, w'') /\
    store w'' = store w' /\
    outcomeCarried QualityAlerts r "qualityAlerts" (VStrs alerts)
      (match alerts with [] => true | _ => false end).
Proof.
  intros Hcheck. unfold FoodQualityAlerts.respond, bind. rewrite Hcheck.
  destruct alerts as [| a rest].
  - do 2 eexists. split; [reflexivity |]. split; [reflexivity |].
    split; intros Hclean; [reflexivity | discriminate].
  - do 2 eexists. split; [reflexivity |]. split; [reflexivity |].
    split; intros Hclean; [discriminate |].
    split; [reflexivity |]. split; [| intros Hs; congruence].
    intros _. split; [reflexivity |]. destruct message; reflexivity.
Qed.




(** An update whose document does not cast is answered 500, one that
    finds no record 404; neither changes the store. *)
Lemma updateRecord_cast_error (s : Service) (t : string)
    (upd : gmap string Value) (w : World) (e : Exn) :
  castUpdate (schema s) (updateDocument upd w) = Throw e ->
  updateRecord s t upd w =
  (res_status_json 500 [("error", Some (VStr "Failed to update food item data."))],
   tick w).
Proof.
  intros Hcast.
  destruct s; unfold schema in Hcast; unfold updateRecord;
    [unfold FoodRegulatoryComplianceSystem.app_post
    | unfold QualityAssurance.app_post
    | unfold FoodQualityAlerts.app_post];
    unfold try_catch, bind, Date_now, findOneAndUpdate;
    change (<["lastUpdated" := VDate (now w)]> upd) with (updateDocument upd w);
    rewrite Hcast; reflexivity.
Qed.

Lemma updateRecord_not_found (s : Service) (t : string)
    (upd : gmap string Value) (w : World) (sets : list (Path * Value)) :
  castUpdate (schema s) (updateDocument upd w) = Ok sets ->
  findIndex t (store w) = None ->
  updateRecord s t upd w =
  (res_status_json 404 [("error", Some (VStr "Food item not found."))], tick w).
Proof.
  intros Hcast Hfind.
  destruct s; unfold schema in Hcast; unfold updateRecord;
    [unfold FoodRegulatoryComplianceSystem.app_post
    | unfold QualityAssurance.app_post
    | unfold FoodQualityAlerts.app_post];
    unfold try_catch, bind, Date_now, findOneAndUpdate;
    change (<["lastUpdated" := VDate (now w)]> upd) with (updateDocument upd w);
    rewrite Hcast; change (store (tick w)) with (store w); rewrite Hfind;
    reflexivity.
Qed.

(** An update that is answered neither 404 nor 500 found its record, and
    its update document was cast. *)
Lemma updateRecord_accepted (s : Service) (t : string)
    (upd : gmap string Value) (w : World) :
  status (fst (updateRecord s t upd w)) <> 404 ->
  status (fst (updateRecord s t upd w)) <> 500 ->
  exists i d sets,
    findIndex t (store w) = Some (i, d) /\
    castUpdate (schema s) (updateDocument upd w) = Ok sets.
Proof.
  intros H404 H500.
  destruct (castUpdate (schema s) (updateDocument upd w)) as [sets | e] eqn:Hcast.
  - destruct (findIndex t (store w)) as [[i d] |] eqn:Hfind.
    + eauto.
    + rewrite (updateRecord_not_found s t upd w sets Hcast Hfind) in H404.
      now contradiction H404.
  - rewrite (updateRecord_cast_error s t upd w e Hcast) in H500.
    now contradiction H500.
Qed.

(** ** Reads and updates of records *)










(** * Further properties of the handlers *)

(** ** What a handler does to the world *)

Lemma onlyReads_refl (w : World) : onlyReads w w.
Proof. unfold onlyReads. auto. Qed.

Lemma onlyReads_tick (w w' : World) : onlyReads w w' -> onlyReads w (tick w').
Proof.
  unfold onlyReads. intros (Hs & Hc & He & Hr). simpl. repeat split; auto.
Qed.

Lemma checkFoodTrustworthiness_world (d : FoodItem) (w : World) :
  exists alerts w',
    QualityAssurance.checkFoodTrustworthiness d w = (Ok alerts, w') /\
    onlyReads w w' /\ (reads w < reads w')%nat.
Proof.
  destruct (freshnessExpiryDate d) as [e |] eqn:He.
  - rewrite (checkFoodTrustworthiness_dated d w e He). do 2 eexists.
    split; [reflexivity |]. split; [apply onlyReads_tick, onlyReads_refl |].
    simpl. lia.
  - rewrite (checkFoodTrustworthiness_undated d w He). do 2 eexists.
    split; [reflexivity |].
    split; [apply onlyReads_tick, onlyReads_tick, onlyReads_refl |].
    simpl. lia.
Qed.

Lemma checkQualityIssues_world (d : FoodItem) (w : World) :
  exists alerts w',
    FoodQualityAlerts.checkQualityIssues d w = (Ok alerts, w') /\
    onlyReads w w' /\ (reads w < reads w')%nat.
Proof.
  rewrite checkQualityIssues_run. do 2 eexists. split; [reflexivity |].
  destruct (freshnessExpiryDate d).
  - split; [apply onlyReads_tick, onlyReads_refl | simpl; lia].
  - split; [apply onlyReads_tick, onlyReads_tick, onlyReads_refl | simpl; lia].
Qed.

(** The quality handlers after the store access, on a document: the
    response, and the event emitted when there are alerts. *)
Lemma quality_respond_run (message : option string) (d : FoodItem) (w w1 : World)
    (alerts : list string) :
  FoodQualityAlerts.checkQualityIssues d w = (Ok alerts, w1) ->
  exists r,
    FoodQualityAlerts.respond message (Some d) w =
    (Ok r,
     match alerts with
     | [] => w1
     | _ :: _ =>
         mkWorld (store w1) (clock w1) (S (reads w1))
           (emitted w1 ++ [qualityAlertEvent d alerts (now w1)])
     end) /\
    status r = 200 /\
    field "qualityAlerts" (body r) = Some (VStrs alerts) /\
    forall p, p ∈ echoedPaths -> field (path_name p) (body r) = getPath p d.
Proof.
  intros Hcheck. unfold FoodQualityAlerts.respond, bind. rewrite Hcheck.
  assert (Hecho : forall tail p, p ∈ echoedPaths ->
            field (path_name p)
              ([("foodItem", getPath PFoodItem d);
                ("origin", getPath POrigin d);
                ("safetyCertifications", getPath PSafetyCertifications d);
                ("contaminationRisk", getPath PContaminationRisk d);
                ("freshnessExpiryDate", getPath PFreshnessExpiryDate d);
                ("traceId", getPath PTraceId d);
                ("qualityAlerts", Some (VStrs alerts));
                ("lastUpdated", getPath PLastUpdated d)] ++ tail)
            = getPath p d).
  { intros tail p Hp. unfold echoedPaths in Hp.
    repeat (apply elem_of_cons in Hp as [-> | Hp]; [reflexivity |]).
    apply elem_of_nil in Hp. destruct Hp. }
  destruct alerts as [| a rest].
  - eexists. split; [reflexivity |]. split; [reflexivity |].
    split; [reflexivity |]. apply Hecho.
  - eexists. split; [reflexivity |]. split; [reflexivity |].
    split; [reflexivity |]. apply Hecho.
Qed.

Lemma compliance_responded (message : option string) (d : FoodItem) (w : World) :
  respondedOn Compliance d w
    (FoodRegulatoryComplianceSystem.respond message (Some d)) w.
Proof.
  unfold respondedOn. repeat (split; [reflexivity || lia |]).
  split; [| split; [| split; [| reflexivity]]].
  - unfold FoodRegulatoryComplianceSystem.respond.
    destruct (negb _); [right | left]; reflexivity.
  - unfold FoodRegulatoryComplianceSystem.respond.
    destruct (negb _); [intros H; discriminate H |].
    intros _ p Hp. unfold echoedPaths in Hp.
    repeat (apply elem_of_cons in Hp as [-> | Hp]; [reflexivity |]).
    apply elem_of_nil in Hp. destruct Hp.
  - intros key finding clean Heval. unfold evaluation in Heval.
    injection Heval as <- <- <-. apply compliance_respond.
Qed.

Lemma trustworthiness_responded (message : string) (d : FoodItem) (w : World) :
  exists r w',
    QualityAssurance.respond message (Some d) w = (Ok r, w') /\
    respondedOn Trustworthiness d w r w' /\ (reads w < reads w')%nat.
Proof.
  destruct (checkFoodTrustworthiness_world d w)
    as (alerts & w' & Hcheck & (Hs & Hc & He & Hr) & Hlt).
  destruct (trustworthiness_respond message d w w' alerts Hcheck) as (r & Hrun & Hout).
  exists r, w'. split; [exact Hrun |]. split; [| exact Hlt].
  unfold QualityAssurance.respond, bind in Hrun. rewrite Hcheck in Hrun.
  unfold respondedOn. repeat (split; [assumption |]).
  destruct alerts as [| a rest]; cbv beta iota in Hrun; injection Hrun as <-.
  - split; [left; reflexivity |]. split; [| split; [| exact He]].
    + intros _ p Hp. unfold echoedPaths in Hp.
      repeat (apply elem_of_cons in Hp as [-> | Hp]; [reflexivity |]).
      apply elem_of_nil in Hp. destruct Hp.
    + intros key finding clean Heval. unfold evaluation in Heval.
      rewrite Hcheck in Heval. cbn [fst] in Heval.
      injection Heval as <- <- <-. exact Hout.
  - split; [right; reflexivity |]. split; [| split; [| exact He]].
    + intros H; discriminate H.
    + intros key finding clean Heval. unfold evaluation in Heval.
      rewrite Hcheck in Heval. cbn [fst] in Heval.
      injection Heval as <- <- <-. exact Hout.
Qed.

Lemma quality_responded (message : option string) (d : FoodItem) (w : World) :
  exists r w',
    FoodQualityAlerts.respond message (Some d) w = (Ok r, w') /\
    respondedOn QualityAlerts d w r w' /\ (reads w < reads w')%nat.
Proof.
  destruct (checkQualityIssues_world d w)
    as (alerts & w1 & Hcheck & Hw1 & Hlt).
  pose proof Hw1 as (Hs & Hc & He & Hr).
  destruct (quality_respond_run message d w w1 alerts Hcheck)
    as (r & Hrun & Hst & Hfield & Hecho).
  destruct (quality_respond message d w w1 alerts Hcheck)
    as (r0 & w0 & Hrun0 & _ & Hout).
  rewrite Hrun in Hrun0. injection Hrun0 as <- _.
  eexists r, _. split; [exact Hrun |]. split.
  - unfold respondedOn.
    split; [destruct alerts; simpl; congruence |].
    split; [destruct alerts; simpl; congruence |].
    split; [destruct alerts; simpl; lia |].
    split; [left; exact Hst |].
    split; [intros _; exact Hecho |].
    split.
    + intros key finding clean Heval. unfold evaluation in Heval.
      rewrite Hcheck in Heval. cbn [fst] in Heval.
      injection Heval as <- <- <-. exact Hout.
    + exists alerts, w1. split; [exact Hcheck |]. split; [exact Hw1 |].
      split; [exact Hfield |].
      destruct alerts; simpl; [rewrite app_nil_r |]; congruence.
  - destruct alerts; simpl; lia.
Qed.

Lemma getRecord_not_found (s : Service) (t : string) (w : World) :
  findIndex t (store w) = None ->
  getRecord s t w =
  (res_status_json 404 [("error", Some (VStr "Food item not found."))], w).
Proof.
  intros Hfind.
  destruct s; unfold getRecord;
    [unfold FoodRegulatoryComplianceSystem.app_get
    | unfold QualityAssurance.app_get
    | unfold FoodQualityAlerts.app_get];
    unfold try_catch, bind, findOne; rewrite Hfind; reflexivity.
Qed.

Lemma getRecord_responded (s : Service) (t : string) (w : World) (i : nat)
    (d : FoodItem) :
  findIndex t (store w) = Some (i, d) ->
  respondedOn s d w (fst (getRecord s t w)) (snd (getRecord s t w)).
Proof.
  intros Hfind. destruct s; unfold getRecord.
  - unfold FoodRegulatoryComplianceSystem.app_get, try_catch, bind.
    rewrite (findOne_found t w i d Hfind). apply compliance_responded.
  - unfold QualityAssurance.app_get, try_catch, bind.
    rewrite (findOne_found t w i d Hfind).
    destruct (trustworthiness_responded "Food item is safe and trustworthy." d w)
      as (r & w' & -> & Hresp & _).
    exact Hresp.
  - unfold FoodQualityAlerts.app_get, try_catch, bind.
    rewrite (findOne_found t w i d Hfind).
    destruct (quality_responded None d w) as (r & w' & -> & Hresp & _).
    exact Hresp.
Qed.

Lemma updateRecord_responded (s : Service) (t : string) (upd : gmap string Value)
    (w : World) (i : nat) (d : FoodItem) (sets : list (Path * Value)) :
  findIndex t (store w) = Some (i, d) ->
  castUpdate (schema s) (updateDocument upd w) = Ok sets ->
  respondedOn s (applyUpdate sets d) (updatedWorld w i (applyUpdate sets d))
    (fst (updateRecord s t upd w)) (snd (updateRecord s t upd w)).
Proof.
  intros Hfind Hcast.
  destruct s; unfold updateRecord; unfold schema in Hcast.
  - unfold FoodRegulatoryComplianceSystem.app_post, try_catch, bind, Date_now.
    rewrite (findOneAndUpdate_found _ t upd w i d sets Hfind Hcast).
    apply compliance_responded.
  - unfold QualityAssurance.app_post, try_catch, bind, Date_now.
    rewrite (findOneAndUpdate_found _ t upd w i d sets Hfind Hcast).
    destruct (trustworthiness_responded "Food item traceability updated successfully."
                (applyUpdate sets d) (updatedWorld w i (applyUpdate sets d)))
      as (r & w' & -> & Hresp & _).
    exact Hresp.
  - unfold FoodQualityAlerts.app_post, try_catch, bind, Date_now.
    rewrite (findOneAndUpdate_found _ t upd w i d sets Hfind Hcast).
    destruct (quality_responded
                (Some "Food item traceability and quality information updated successfully.")
                (applyUpdate sets d) (updatedWorld w i (applyUpdate sets d)))
      as (r & w' & -> & Hresp & _).
    exact Hresp.
Qed.

(** The three ways an update ends. *)
Lemma updateRecord_cases (s : Service) (t : string) (upd : gmap string Value)
    (w : World) :
  (exists e,
     castUpdate (schema s) (updateDocument upd w) = Throw e /\
     status (fst (updateRecord s t upd w)) = 500 /\
     snd (updateRecord s t upd w) = tick w) \/
  (findIndex t (store w) = None /\
   status (fst (updateRecord s t upd w)) = 404 /\
   snd (updateRecord s t upd w) = tick w) \/
  (exists i d sets,
     findIndex t (store w) = Some (i, d) /\
     castUpdate (schema s) (updateDocument upd w) = Ok sets /\
     respondedOn s (applyUpdate sets d) (updatedWorld w i (applyUpdate sets d))
       (fst (updateRecord s t upd w)) (snd (updateRecord s t upd w))).
Proof.
  destruct (castUpdate (schema s) (updateDocument upd w)) as [sets | e] eqn:Hcast.
  - destruct (findIndex t (store w)) as [[i d] |] eqn:Hfind.
    + right; right. exists i, d, sets.
      split; [reflexivity |]. split; [reflexivity |].
      now apply updateRecord_responded.
    + right; left. rewrite (updateRecord_not_found s t upd w sets Hcast Hfind).
      repeat split.
  - left. exists e. rewrite (updateRecord_cast_error s t upd w e Hcast).
    repeat split.
Qed.

(** ** Reads *)

Lemma findIndex_None (t : string) (docs : list FoodItem) :
  findIndex t docs = None <-> forall d, d ∈ docs -> traceId d <> Some t.
Proof.
  unfold findIndex. rewrite list_find_None, Forall_forall. reflexivity.
Qed.

(** X1: a read changes neither the store nor the clock; it only consumes
    reads of the clock. *)
Theorem getRecord_read_only (s : Service) (t : string) (w : World) :
  store (snd (getRecord s t w)) = store w /\
  clock (snd (getRecord s t w)) = clock w /\
  (reads w <= reads (snd (getRecord s t w)))%nat.
Proof.
  destruct (findIndex t (store w)) as [[i d] |] eqn:Hfind.
  - destruct (getRecord_responded s t w i d Hfind) as (Hs & Hc & Hr & _). auto.
  - rewrite (getRecord_not_found s t w Hfind). simpl. auto.
Qed.

(** X2: a read is answered 404 exactly when no document of the store holds
    the trace id; it then carries the not-found message and leaves the
    world as it was, clock included. *)
Theorem getRecord_404_iff_absent (s : Service) (t : string) (w : World) :
  (status (fst (getRecord s t w)) = 404 <->
   forall d, d ∈ store w -> traceId d <> Some t) /\
  (status (fst (getRecord s t w)) = 404 ->
   getRecord s t w =
   (res_status_json 404 [("error", Some (VStr "Food item not found."))], w)).
Proof.
  rewrite <- findIndex_None.
  destruct (findIndex t (store w)) as [[i d] |] eqn:Hfind.
  - destruct (getRecord_responded s t w i d Hfind)
      as (_ & _ & _ & [H200 | H400] & _);
      split; try split; intros H; try discriminate H; rewrite H in *; discriminate.
  - rewrite (getRecord_not_found s t w Hfind). simpl. repeat split; auto.
Qed.

(** ** Updates *)



(** X4: no update adds or removes a document, and an update leaves every
    document that does not hold its trace id as it was, at its place. *)
Theorem updateRecord_frame (s : Service) (t : string)
    (upd : gmap string Value) (w : World) :
  length (store (snd (updateRecord s t upd w))) = length (store w) /\
  forall j d0,
    store w !! j = Some d0 -> traceId d0 <> Some t ->
    store (snd (updateRecord s t upd w)) !! j = Some d0.
Proof.
  destruct (updateRecord_cases s t upd w)
    as [(e & _ & _ & ->) | [(_ & _ & ->) | (i & d & sets & Hfind & _ & Hresp)]];
    [split; [reflexivity | auto] .. |].
  destruct Hresp as (-> & _).
  destruct (findIndex_lookup _ _ _ _ Hfind) as [Hlook Ht].
  split.
  - apply length_insert.
  - intros j d0 Hj Hne. unfold updatedWorld. cbn [store].
    rewrite list_lookup_insert_ne; [exact Hj |].
    intros ->. rewrite Hlook in Hj. injection Hj as ->. contradiction.
Qed.


Lemma findIndex_rekeyed (t : string) (docs : list FoodItem) (i : nat)
    (d d' : FoodItem) :
  findIndex t docs = Some (i, d) -> traceId d' <> Some t ->
  (forall j d0, docs !! j = Some d0 -> traceId d0 = Some t -> j = i) ->
  findIndex t (<[i := d']> docs) = None.
Proof.
  intros Hfind Ht Huniq. apply findIndex_None. intros x Hx.
  destruct (findIndex_lookup _ _ _ _ Hfind) as [Hlook _].
  apply list_elem_of_lookup in Hx as [j Hj].
  destruct (decide (j = i)) as [-> | Hne].
  - rewrite (lookup_updated docs i d d' Hlook) in Hj. now injection Hj as <-.
  - rewrite list_lookup_insert_ne in Hj by congruence.
    intros Hxt. apply Hne. now apply (Huniq j x).
Qed.

Lemma traceId_in_schema (s : Service) : PTraceId ∈ schema s.
Proof. destruct s; simpl; repeat constructor. Qed.

Lemma fmap_VStr_inj (a b : option string) : VStr <$> a = VStr <$> b -> a = b.
Proof. destruct a, b; simpl; intros H; congruence. Qed.

Lemma fmap_VDate_inj (a b : option Z) : VDate <$> a = VDate <$> b -> a = b.
Proof. destruct a, b; simpl; intros H; congruence. Qed.

(** What a cast update makes of a document. *)
Lemma applied_update (s : Service) (upd : gmap string Value) (w : World)
    (sets : list (Path * Value)) (d : FoodItem) :
  castUpdate (schema s) (updateDocument upd w) = Ok sets ->
  lastUpdated (applyUpdate sets d) = Some (now w) /\
  (forall p v, p ∈ schema s -> p <> PLastUpdated ->
               upd !! path_name p = Some v ->
               getPath p (applyUpdate sets d) = Some v) /\
  (forall p, p <> PLastUpdated -> upd !! path_name p = None ->
             getPath p (applyUpdate sets d) = getPath p d).
Proof.
  intros Hcast. split; [| split].
  - apply fmap_VDate_inj.
    change (getPath PLastUpdated (applyUpdate sets d) = Some (VDate (now w))).
    rewrite (getPath_applyUpdate _ _ _ d PLastUpdated Hcast).
    rewrite decide_True by apply lastUpdated_in_schema.
    now rewrite updateDocument_lastUpdated.
  - intros p v Hin Hne Hupd.
    rewrite (getPath_applyUpdate _ _ _ d p Hcast).
    rewrite decide_True by exact Hin.
    now rewrite updateDocument_other, Hupd.
  - intros p Hne Hnone.
    rewrite (getPath_applyUpdate _ _ _ d p Hcast).
    destruct (decide (p ∈ schema s)); [| reflexivity].
    now rewrite updateDocument_other, Hnone.
Qed.



(** X6: the trace id is a field like another.  An accepted update that
    supplies a trace id no document holds stores it: the document is found
    under the new trace id from then on, and, no other document holding
    the former one, a read under the former trace id is answered 404. *)
Theorem update_can_change_traceId (s : Service) (t t' : string)
    (upd : gmap string Value) (w : World) :
  status (fst (updateRecord s t upd w)) <> 404 ->
  status (fst (updateRecord s t upd w)) <> 500 ->
  upd !! "traceId" = Some (VStr t') ->
  (forall d0, d0 ∈ store w -> traceId d0 <> Some t') ->
  (forall j1 j2 d1 d2,
     store w !! j1 = Some d1 -> store w !! j2 = Some d2 ->
     traceId d1 = Some t -> traceId d2 = Some t -> j1 = j2) ->
  exists i d d',
    findIndex t (store w) = Some (i, d) /\
    findIndex t' (store (snd (updateRecord s t upd w))) = Some (i, d') /\
    traceId d' = Some t' /\
    status (fst (getRecord s t (snd (updateRecord s t upd w)))) = 404.
Proof.
  intros H404 H500 Hnew Hfresh Huniq.
  destruct (updateRecord_accepted s t upd w H404 H500)
    as (i & d & sets & Hfind & Hcast).
  destruct (updateRecord_responded s t upd w i d sets Hfind Hcast) as (Hstore & _).
  destruct (applied_update s upd w sets d Hcast) as (_ & Hgiven & _).
  destruct (findIndex_lookup _ _ _ _ Hfind) as [Hlook Ht].
  assert (Ht' : traceId (applyUpdate sets d) = Some t').
  { apply fmap_VStr_inj.
    apply (Hgiven PTraceId (VStr t'));
      [apply traceId_in_schema | discriminate | exact Hnew]. }
  assert (Hne : t' <> t).
  { intros ->. apply (Hfresh d); [| exact Ht].
    apply list_elem_of_lookup. eauto. }
  exists i, d, (applyUpdate sets d).
  split; [exact Hfind |]. split; [| split; [exact Ht' |]].
  - rewrite Hstore. unfold updatedWorld. cbn [store]. unfold findIndex.
    apply list_find_Some. split; [now apply lookup_updated with (d := d) |].
    split; [exact Ht' |].
    intros j y Hj Hlt. rewrite list_lookup_insert_ne in Hj by lia.
    apply Hfresh. apply list_elem_of_lookup. eauto.
  - rewrite getRecord_not_found; [reflexivity |].
    rewrite Hstore. apply findIndex_rekeyed with (d := d); [exact Hfind | |].
    + rewrite Ht'. congruence.
    + intros j d0 Hj Hd0. now apply (Huniq j i d0 d).
Qed.

Lemma update_can_change_traceId_witness :
  exists i d d',
    findIndex "T1" (store (sample_world [sample_record all_certifications false None]))
      = Some (i, d) /\
    findIndex "T2"
      (store (snd (updateRecord QualityAlerts "T1" {[ "traceId" := VStr "T2" ]}
                     (sample_world [sample_record all_certifications false None]))))
      = Some (i, d') /\
    traceId d' = Some "T2" /\
    status (fst (getRecord QualityAlerts "T1"
                   (snd (updateRecord QualityAlerts "T1" {[ "traceId" := VStr "T2" ]}
                           (sample_world
                              [sample_record all_certifications false None])))))
      = 404.
Proof.
  assert (H404 : status (fst (updateRecord QualityAlerts "T1"
                    {[ "traceId" := VStr "T2" ]}
                    (sample_world [sample_record all_certifications false None])))
                 <> 404) by (vm_compute; discriminate).
  assert (H500 : status (fst (updateRecord QualityAlerts "T1"
                    {[ "traceId" := VStr "T2" ]}
                    (sample_world [sample_record all_certifications false None])))
                 <> 500) by (vm_compute; discriminate).
  assert (Hnew : ({[ "traceId" := VStr "T2" ]} : gmap string Value)
                   !! "traceId" = Some (VStr "T2")) by (vm_compute; reflexivity).
  apply (update_can_change_traceId QualityAlerts "T1" "T2" _ _ H404 H500 Hnew).
  - intros d0 Hd0. apply list_elem_of_singleton in Hd0 as ->. discriminate.
  - intros j1 j2 d1 d2 H1 H2 _ _.
    destruct j1 as [| j1]; [| discriminate H1].
    destruct j2 as [| j2]; [reflexivity | discriminate H2].
Defined.

(** X7: with a clock that never runs backwards, [lastUpdated] never
    decreases from one accepted update of a document to the next accepted
    update of the same document. *)
Theorem lastUpdated_never_decreases (s : Service) (t1 t2 : string)
    (upd1 upd2 : gmap string Value) (w : World) (i : nat) (d0 d1 : FoodItem) :
  clockMonotone w ->
  findIndex t1 (store w) = Some (i, d0) ->
  status (fst (updateRecord s t1 upd1 w)) <> 500 ->
  findIndex t2 (store (snd (updateRecord s t1 upd1 w))) = Some (i, d1) ->
  status (fst (updateRecord s t2 upd2 (snd (updateRecord s t1 upd1 w)))) <> 500 ->
  exists a b d2,
    lastUpdated d1 = Some a /\
    store (snd (updateRecord s t2 upd2 (snd (updateRecord s t1 upd1 w)))) !! i
      = Some d2 /\
    lastUpdated d2 = Some b /\
    a <= b.
Proof.
  intros Hmono Hfind1 H500 Hfind2 H500'.
  destruct (updateRecord_cases s t1 upd1 w)
    as [(e & _ & H & _) | [(H & _) | (i1 & d & sets & Hf & Hcast & Hresp)]];
    [contradiction | congruence |].
  rewrite Hfind1 in Hf. injection Hf as <- <-.
  destruct Hresp as (Hstore & Hclock & Hreads & _).
  destruct (applied_update s upd1 w sets d0 Hcast) as (Hlast & _).
  set (w1 := snd (updateRecord s t1 upd1 w)) in *.
  destruct (findIndex_lookup _ _ _ _ Hfind1) as [Hlook1 _].
  destruct (findIndex_lookup _ _ _ _ Hfind2) as [Hlook2 _].
  rewrite Hstore in Hlook2. unfold updatedWorld in Hlook2. cbn [store] in Hlook2.
  rewrite (lookup_updated _ i d0 _ Hlook1) in Hlook2. injection Hlook2 as <-.
  destruct (updateRecord_cases s t2 upd2 w1)
    as [(e & _ & H & _) | [(H & _) | (i2 & d & sets2 & Hf & Hcast2 & Hresp2)]];
    [contradiction | congruence |].
  rewrite Hfind2 in Hf. injection Hf as <- <-.
  destruct Hresp2 as (Hstore2 & _).
  destruct (applied_update s upd2 w1 sets2 (applyUpdate sets d0) Hcast2)
    as (Hlast2 & _).
  exists (now w), (now w1), (applyUpdate sets2 (applyUpdate sets d0)).
  split; [exact Hlast |]. split; [| split; [exact Hlast2 |]].
  - rewrite Hstore2. unfold updatedWorld. cbn [store].
    apply lookup_updated with (d := applyUpdate sets d0).
    now apply findIndex_lookup in Hfind2.
  - unfold now. rewrite Hclock. unfold updatedWorld at 1. cbn [clock].
    apply Hmono. unfold updatedWorld in Hreads. cbn [reads] in Hreads. lia.
Qed.

Lemma lastUpdated_never_decreases_witness :
  exists a b d2,
    Some 1700000000000 = Some a /\
    store (snd (updateRecord Compliance "T1" {[ "origin" := VStr "FarmZ" ]}
                  (snd (updateRecord Compliance "T1" {[ "origin" := VStr "FarmY" ]}
                          (sample_world [sample_record [] true None])))))
      !! 0%nat = Some d2 /\
    lastUpdated d2 = Some b /\
    a <= b.
Proof.
  assert (Hmono : clockMonotone (sample_world [sample_record [] true None])).
  { intros n m Hnm. unfold sample_world, sample_clock. simpl. lia. }
  assert (H500 : status (fst (updateRecord Compliance "T1"
                    {[ "origin" := VStr "FarmY" ]}
                    (sample_world [sample_record [] true None]))) <> 500)
    by (vm_compute; discriminate).
  assert (H500' : status (fst (updateRecord Compliance "T1"
                     {[ "origin" := VStr "FarmZ" ]}
                     (snd (updateRecord Compliance "T1" {[ "origin" := VStr "FarmY" ]}
                             (sample_world [sample_record [] true None])))))
                  <> 500)
    by (vm_compute; discriminate).
  apply (lastUpdated_never_decreases Compliance "T1" "T1"
           {[ "origin" := VStr "FarmY" ]} {[ "origin" := VStr "FarmZ" ]}
           (sample_world [sample_record [] true None]) 0%nat
           (sample_record [] true None)
           (mkFoodItem (Some "Milk") (Some "FarmY") (Some 1699990000000) None
              [] (Some true) (Some "T1") (Some false) (Some false)
              (Some 1700000000000))
           Hmono).
  - vm_compute; reflexivity.
  - exact H500.
  - vm_compute; reflexivity.
  - exact H500'.
Defined.





(** ** Notifications *)

Lemma qualityAlertEvent_announces (d : FoodItem) (alerts : list string) (ts : Z) :
  announces (qualityAlertEvent d alerts ts) d alerts.
Proof.
  unfold announces, qualityAlertEvent. cbn [qa_traceId qa_foodItem qa_alertMessage].
  split; [reflexivity |]. split; [reflexivity |]. split.
  - apply names_append_l, names_append_r, names_refl.
  - intros a Ha. now apply names_append_l, names_append_l, names_append_l, join_names.
Qed.

Lemma emitted_of_alerts (d : FoodItem) (alerts : list string) (ts : Z)
    (before after : list QualityAlert) :
  after = before ++ match alerts with
                    | [] => []
                    | _ :: _ => [qualityAlertEvent d alerts ts]
                    end ->
  (alerts = [] -> after = before) /\
  (alerts <> [] ->
   exists ev, after = before ++ [ev] /\ announces ev d alerts /\ qa_timestamp ev = ts).
Proof.
  intros ->. split.
  - intros ->. apply app_nil_r.
  - intros Hne. destruct alerts as [| a rest]; [contradiction |].
    eexists. split; [reflexivity |].
    split; [apply qualityAlertEvent_announces | reflexivity].
Qed.

(** X10: a read of the quality-alert service that finds its record returns
    the alerts of the check and notifies exactly when there are alerts: it
    emits no event when there is none, and otherwise one event, after those
    emitted before, which carries the record's trace id and name and whose
    message names the record and every alert. *)
Theorem quality_read_notifies (t : string) (w : World) (i : nat) (d : FoodItem)
    (alerts : list string) :
  findIndex t (store w) = Some (i, d) ->
  fst (FoodQualityAlerts.checkQualityIssues d w) = Ok alerts ->
  field "qualityAlerts" (body (fst (getRecord QualityAlerts t w)))
    = Some (VStrs alerts) /\
  (alerts = [] -> emitted (snd (getRecord QualityAlerts t w)) = emitted w) /\
  (alerts <> [] ->
   exists ev,
     emitted (snd (getRecord QualityAlerts t w)) = emitted w ++ [ev] /\
     announces ev d alerts /\
     qa_timestamp ev = now (snd (FoodQualityAlerts.checkQualityIssues d w))).
Proof.
  intros Hfind Halerts.
  destruct (getRecord_responded QualityAlerts t w i d Hfind)
    as (_ & _ & _ & _ & _ & _ & (alerts' & w1 & Hcheck & _ & Hfield & Hem)).
  rewrite Hcheck in Halerts |- *. cbn [fst snd] in *. injection Halerts as ->.
  split; [exact Hfield |]. now apply emitted_of_alerts.
Qed.

Lemma quality_read_notifies_witness :
  field "qualityAlerts"
    (body (fst (getRecord QualityAlerts "T1"
                  (sample_world [sample_record all_certifications true None]))))
    = Some (VStrs ["Food item has contamination risk."]) /\
  exists ev,
    emitted (snd (getRecord QualityAlerts "T1"
                    (sample_world [sample_record all_certifications true None])))
      = [] ++ [ev] /\
    announces ev (sample_record all_certifications true None)
      ["Food item has contamination risk."].
Proof.
  destruct (quality_read_notifies "T1"
              (sample_world [sample_record all_certifications true None])
              0%nat (sample_record all_certifications true None)
              ["Food item has contamination risk."])
    as (Hfield & _ & Hev).
  - vm_compute; reflexivity.
  - vm_compute; reflexivity.
  - split; [exact Hfield |].
    destruct (Hev ltac:(discriminate)) as (ev & Hem & Hann & _).
    exists ev. split; [exact Hem | exact Hann].
Defined.

(** X11: an update of the quality-alert service answered 200 notifies about
    the document as updated: the alerts in the response are those of the
    stored document, no event is emitted when there is none, and otherwise
    one event, which announces the stored document and these alerts. *)
Theorem quality_update_notifies (t : string) (upd : gmap string Value) (w : World) :
  status (fst (updateRecord QualityAlerts t upd w)) = 200 ->
  exists i d' alerts,
    store (snd (updateRecord QualityAlerts t upd w)) !! i = Some d' /\
    fst (FoodQualityAlerts.checkQualityIssues d' (updatedWorld w i d')) = Ok alerts /\
    field "qualityAlerts" (body (fst (updateRecord QualityAlerts t upd w)))
      = Some (VStrs alerts) /\
    (alerts = [] ->
     emitted (snd (updateRecord QualityAlerts t upd w)) = emitted w) /\
    (alerts <> [] ->
     exists ev,
       emitted (snd (updateRecord QualityAlerts t upd w)) = emitted w ++ [ev] /\
       announces ev d' alerts).
Proof.
  intros H200.
  destruct (updateRecord_cases QualityAlerts t upd w)
    as [(e & _ & H & _) | [(_ & H & _) | (i & d & sets & Hfind & Hcast & Hresp)]];
    [rewrite H in H200; discriminate H200 ..|].
  set (d' := applyUpdate sets d) in *.
  destruct Hresp
    as (Hstore & _ & _ & _ & _ & _ & (alerts & w1 & Hcheck & _ & Hfield & Hem)).
  destruct (findIndex_lookup _ _ _ _ Hfind) as [Hlook _].
  exists i, d', alerts.
  split; [rewrite Hstore; now apply lookup_updated with (d := d) |].
  split; [now rewrite Hcheck |]. split; [exact Hfield |].
  unfold updatedWorld in Hem. cbn [emitted] in Hem.
  destruct (emitted_of_alerts d' alerts (now w1) _ _ Hem) as [Hnone Hsome].
  split; [exact Hnone |].
  intros Hne. destruct (Hsome Hne) as (ev & H1 & H2 & _). eauto.
Qed.

Lemma quality_update_notifies_witness :
  exists i d' alerts,
    store (snd (updateRecord QualityAlerts "T1" {[ "contaminationRisk" := VBool true ]}
                  (sample_world [sample_record all_certifications false None])))
      !! i = Some d' /\
    fst (FoodQualityAlerts.checkQualityIssues d'
           (updatedWorld (sample_world [sample_record all_certifications false None])
              i d')) = Ok alerts /\
    field "qualityAlerts"
      (body (fst (updateRecord QualityAlerts "T1"
                    {[ "contaminationRisk" := VBool true ]}
                    (sample_world [sample_record all_certifications false None]))))
      = Some (VStrs alerts).
Proof.
  assert (H200 : status (fst (updateRecord QualityAlerts "T1"
                    {[ "contaminationRisk" := VBool true ]}
                    (sample_world [sample_record all_certifications false None])))
                 = 200) by (vm_compute; reflexivity).
  destruct (quality_update_notifies "T1" _ _ H200)
    as (i & d' & alerts & Hst & Hcheck & Hfield & _).
  exists i, d', alerts. auto.
Defined.

(** ** The evaluators *)

Lemma forallb_agree {A : Type} (f g : A -> bool) (l : list A) :
  (forall x, In x l -> f x = g x) -> forallb f l = forallb g l.
Proof.
  induction l as [| x l IH]; intros H; simpl; [reflexivity |].
  rewrite (H x) by (now left). rewrite IH; [reflexivity |].
  intros y Hy. apply H. now right.
Qed.

(** X12: the compliance check reads a record through two things only:
    which of the required certifications it holds, and whether its
    contamination flag is set.  Order and repetition of the
    certifications, other certifications and the other fields do not
    matter. *)
Theorem compliance_depends_on_membership (d1 d2 : FoodItem) :
  (forall cert,
     In cert FoodRegulatoryComplianceSystem.requiredCertifications ->
     (In cert (safetyCertifications d1) <-> In cert (safetyCertifications d2))) ->
  (contaminationRisk d1 = Some true <-> contaminationRisk d2 = Some true) ->
  FoodRegulatoryComplianceSystem.checkRegulatoryCompliance d1 =
  FoodRegulatoryComplianceSystem.checkRegulatoryCompliance d2.
Proof.
  intros Hcerts Hrisk. unfold FoodRegulatoryComplianceSystem.checkRegulatoryCompliance.
  rewrite (forallb_agree
             (fun cert => includes (safetyCertifications d1) cert)
             (fun cert => includes (safetyCertifications d2) cert)).
  - replace (truthy (contaminationRisk d2)) with (truthy (contaminationRisk d1));
      [reflexivity |].
    rewrite <- !truthy_Some_true in Hrisk.
    destruct (truthy (contaminationRisk d1)), (truthy (contaminationRisk d2));
      intuition congruence.
  - intros cert Hreq. specialize (Hcerts cert Hreq).
    rewrite <- !includes_In in Hcerts.
    destruct (includes (safetyCertifications d1) cert),
             (includes (safetyCertifications d2) cert); intuition congruence.
Qed.

Lemma compliance_depends_on_membership_witness :
  FoodRegulatoryComplianceSystem.checkRegulatoryCompliance
    (sample_record ["ISO 22000"; "Organic"; "FDA Approved"; "ISO 22000";
                    "FSSAI Certified"] false None) =
  FoodRegulatoryComplianceSystem.checkRegulatoryCompliance
    (sample_record all_certifications false (Some 0)).
Proof.
  apply compliance_depends_on_membership.
  - intros cert Hreq. unfold sample_record, all_certifications. cbn [safetyCertifications].
    simpl in Hreq. simpl. intuition (subst; auto).
  - reflexivity.
Defined.

Lemma diff_hours_at_least_24 (a b : Z) :
  24 <= diff_hours a b <-> 24 * 3600000 <= a - b.
Proof.
  unfold diff_hours. pose proof (Z.quot_rem' (a - b) 3600000) as Hq.
  destruct (Z_le_gt_dec 0 (a - b)) as [Hpos | Hneg].
  - pose proof (Z.rem_bound_pos_pos (a - b) 3600000 ltac:(lia) Hpos). lia.
  - pose proof (Z.rem_bound_pos_neg (a - b) 3600000 ltac:(lia) ltac:(lia)). lia.
Qed.

Lemma trustworthiness_alerts_nil (h : Z) (d : FoodItem) :
  expiryAlerts h ++ contaminationAlert d = [] <->
  24 <= h /\ contaminationRisk d <> Some true.
Proof.
  rewrite <- truthy_Some_true. unfold expiryAlerts, contaminationAlert.
  destruct (Z.ltb_spec h 0); [split; [discriminate | lia] |].
  destruct (Z.ltb_spec h 24); [split; [discriminate | lia] |].
  destruct (truthy (contaminationRisk d)); simpl; split;
    try discriminate; intuition (congruence || lia).
Qed.

(** X13: a read of the trustworthiness service that finds a record with an
    expiry date is answered 200 exactly when the contamination flag is not
    set and the expiry date is at least 24 hours after the evaluation time;
    it is answered 400 otherwise. *)
Theorem trustworthy_iff (t : string) (w : World) (i : nat) (d : FoodItem) (e : Z) :
  findIndex t (store w) = Some (i, d) ->
  freshnessExpiryDate d = Some e ->
  (status (fst (getRecord Trustworthiness t w)) = 200 <->
   contaminationRisk d <> Some true /\ now w + 24 * 3600000 <= e) /\
  (status (fst (getRecord Trustworthiness t w)) = 200 \/
   status (fst (getRecord Trustworthiness t w)) = 400).
Proof.
  intros Hfind He.
  destruct (getRecord_responded Trustworthiness t w i d Hfind)
    as (_ & _ & _ & Hst & _ & Hout & _).
  split; [| exact Hst].
  unfold evaluation in Hout.
  rewrite (checkFoodTrustworthiness_dated d w e He) in Hout. cbn [fst] in Hout.
  specialize (Hout _ _ _ eq_refl). destruct Hout as [Hclean Hdirty].
  pose proof (trustworthiness_alerts_nil (diff_hours e (now w)) d) as Hnil.
  rewrite diff_hours_at_least_24 in Hnil.
  destruct (expiryAlerts (diff_hours e (now w)) ++ contaminationAlert d)
    as [| a rest].
  - split; [intros _ | intros _; now apply Hclean].
    destruct Hnil as [Hnil _]. specialize (Hnil eq_refl). split; [tauto | lia].
  - destruct (Hdirty eq_refl) as (_ & _ & H400).
    destruct (H400 ltac:(discriminate)) as [H400' _].
    split.
    + intros H200. rewrite H200 in H400'. discriminate H400'.
    + intros [Hrisk Hexp]. destruct Hnil as [_ Hnil].
      discriminate Hnil. split; [lia | exact Hrisk].
Qed.

Lemma trustworthy_iff_witness :
  status (fst (getRecord Trustworthiness "T1"
                 (sample_world
                    [sample_record [] false (Some (1700000000000 + 24 * 3600000))])))
  = 200.
Proof.
  apply (proj1 (trustworthy_iff "T1"
                  (sample_world
                     [sample_record [] false (Some (1700000000000 + 24 * 3600000))])
                  0%nat
                  (sample_record [] false (Some (1700000000000 + 24 * 3600000)))
                  (1700000000000 + 24 * 3600000)
                  ltac:(vm_compute; reflexivity) eq_refl)).
  split; [discriminate | vm_compute; discriminate].
Defined.

Lemma Ok_inj {A : Type} (a b : A) : Ok a = Ok b -> a = b.
Proof. congruence. Qed.

Lemma checkQualityIssues_alerts (d : FoodItem) (w : World) :
  fst (FoodQualityAlerts.checkQualityIssues d w) =
  Ok ((if truthy (contaminationRisk d)
       then [FoodQualityAlerts.msg_contamination] else [])
      ++ (if isBefore (match freshnessExpiryDate d with
                       | Some e => e
                       | None => now (tick w)
                       end) (now w)
          then [FoodQualityAlerts.msg_expired] else [])
      ++ match missingRequired FoodQualityAlerts.requiredCertifications d with
         | [] => []
         | _ :: _ =>
             [FoodQualityAlerts.msg_missing
                (missingRequired FoodQualityAlerts.requiredCertifications d)]
         end).
Proof. rewrite checkQualityIssues_run. reflexivity. Qed.




Lemma trustworthiness_expired_In (h : Z) (d : FoodItem) :
  In QualityAssurance.msg_expired (expiryAlerts h ++ contaminationAlert d) <-> h < 0.
Proof.
  unfold expiryAlerts, contaminationAlert.
  assert (Hn : forall k, QualityAssurance.msg_near_expiry k
                         <> QualityAssurance.msg_expired).
  { intros k Heq. apply (f_equal is_expired) in Heq. discriminate Heq. }
  assert (Hc : QualityAssurance.msg_contamination <> QualityAssurance.msg_expired).
  { intros Heq. apply (f_equal is_expired) in Heq. discriminate Heq. }
  destruct (Z.ltb_spec h 0); [| destruct (Z.ltb_spec h 24)];
    destruct (truthy (contaminationRisk d)); simpl; split;
    try lia; try tauto; intros Hin;
    repeat (destruct Hin as [Hin | Hin]; [first [now apply Hn in Hin
                                                 | now apply Hc in Hin] |]);
    try destruct Hin.
Qed.

Lemma quality_expired_In (d : FoodItem) (w : World) (e : Z) (alerts : list string) :
  freshnessExpiryDate d = Some e ->
  fst (FoodQualityAlerts.checkQualityIssues d w) = Ok alerts ->
  (In FoodQualityAlerts.msg_expired alerts <-> e < now w).
Proof.
  intros He. rewrite checkQualityIssues_alerts, He. intros Heq.
  apply Ok_inj in Heq. subst alerts. unfold isBefore.
  assert (Hc : FoodQualityAlerts.msg_contamination <> FoodQualityAlerts.msg_expired).
  { intros Heq. apply String.eqb_eq in Heq. discriminate Heq. }
  assert (Hm : forall l, FoodQualityAlerts.msg_missing l
                         <> FoodQualityAlerts.msg_expired).
  { intros l Heq. apply (f_equal (starts_with "F")) in Heq. discriminate Heq. }
  rewrite !in_app_iff.
  destruct (Z.ltb_spec e (now w)) as [Hlt | Hge].
  - split; [intros _; exact Hlt | intros _; right; left; now left].
  - split; [| lia]. intros [Hin | [Hin | Hin]].
    + destruct (truthy (contaminationRisk d)); simpl in Hin; [| destruct Hin].
      destruct Hin as [Hin | []]. now apply Hc in Hin.
    + destruct Hin.
    + destruct (missingRequired FoodQualityAlerts.requiredCertifications d);
        simpl in Hin; [destruct Hin |].
      destruct Hin as [Hin | []]. now apply Hm in Hin.
Qed.

(** X15: the two checks agree in one direction on expiry.  For a record
    with an expiry date, whenever the trustworthiness check reports it as
    expired, the quality check, run at the same time or later, reports it
    as expired too. *)
Theorem trust_expired_implies_quality_expired (d : FoodItem) (w w' : World) (e : Z)
    (trustAlerts qualityAlerts : list string) :
  freshnessExpiryDate d = Some e ->
  now w <= now w' ->
  fst (QualityAssurance.checkFoodTrustworthiness d w) = Ok trustAlerts ->
  fst (FoodQualityAlerts.checkQualityIssues d w') = Ok qualityAlerts ->
  In QualityAssurance.msg_expired trustAlerts ->
  In FoodQualityAlerts.msg_expired qualityAlerts.
Proof.
  intros He Hnow Htrust Hquality Hin.
  rewrite (checkFoodTrustworthiness_dated d w e He) in Htrust. cbn [fst] in Htrust.
  injection Htrust as <-.
  apply trustworthiness_expired_In, diff_hours_negative_iff in Hin.
  apply (quality_expired_In d w' e qualityAlerts He Hquality). lia.
Qed.

Lemma trust_expired_implies_quality_expired_witness :
  In FoodQualityAlerts.msg_expired
    ["Food item has expired."; "Missing required certifications: ISO 22000"].
Proof.
  apply (trust_expired_implies_quality_expired
           (sample_record ["FDA Approved"; "FSSAI Certified"] false
              (Some (1700000000000 - 2 * 3600000)))
           (sample_world []) (sample_world [])
           (1700000000000 - 2 * 3600000)
           ["Food item has expired."]
           ["Food item has expired."; "Missing required certifications: ISO 22000"]).
  - reflexivity.
  - vm_compute; discriminate.
  - vm_compute; reflexivity.
  - vm_compute; reflexivity.
  - left; reflexivity.
Defined.

(** X16: expiry is permanent.  Once a check reports a record with an
    expiry date as expired, the same check reports it as expired at every
    later evaluation time; this holds of the trustworthiness check and of
    the quality check. *)
Theorem expired_stays_expired (d : FoodItem) (w w' : World) (e : Z)
    (trust trust' quality quality' : list string) :
  freshnessExpiryDate d = Some e ->
  now w <= now w' ->
  fst (QualityAssurance.checkFoodTrustworthiness d w) = Ok trust ->
  fst (QualityAssurance.checkFoodTrustworthiness d w') = Ok trust' ->
  fst (FoodQualityAlerts.checkQualityIssues d w) = Ok quality ->
  fst (FoodQualityAlerts.checkQualityIssues d w') = Ok quality' ->
  (In QualityAssurance.msg_expired trust ->
   In QualityAssurance.msg_expired trust') /\
  (In FoodQualityAlerts.msg_expired quality ->
   In FoodQualityAlerts.msg_expired quality').
Proof.
  intros He Hnow Ht Ht' Hq Hq'.
  rewrite (checkFoodTrustworthiness_dated d w e He) in Ht.
  rewrite (checkFoodTrustworthiness_dated d w' e He) in Ht'.
  cbn [fst] in Ht, Ht'. injection Ht as <-. injection Ht' as <-.
  split.
  - rewrite !trustworthiness_expired_In, !diff_hours_negative_iff. lia.
  - rewrite (quality_expired_In d w e quality He Hq).
    rewrite (quality_expired_In d w' e quality' He Hq'). lia.
Qed.

Lemma expired_stays_expired_witness :
  (In QualityAssurance.msg_expired ["Food item has expired."] ->
   In QualityAssurance.msg_expired ["Food item has expired."]) /\
  (In FoodQualityAlerts.msg_expired ["Food item has expired."] ->
   In FoodQualityAlerts.msg_expired ["Food item has expired."]).
Proof.
  apply (expired_stays_expired
           (sample_record all_certifications false
              (Some (1700000000000 - 2 * 3600000)))
           (sample_world []) (tick (sample_world []))
           (1700000000000 - 2 * 3600000)).
  - reflexivity.
  - vm_compute; discriminate.
  - vm_compute; reflexivity.
  - vm_compute; reflexivity.
  - vm_compute; reflexivity.
  - vm_compute; reflexivity.
Defined.

(** ** Updates and the compliance outcome *)




